(** * Criminal-expungement notebooks: census cleaning and felony modelling

    A shallow embedding of the data-preparation code of the notebooks
    [felony_modeling_circuit_all.ipynb] (circuit-court records),
    its district-court sibling, and the census-cleaning notebook.

    Dataframes are lists of rows.  Nullable string columns read from CSV
    are [option string]; Spark's boolean columns are three-valued
    ([option bool]), and [filter] keeps the rows where the predicate is
    [Some true].  The library operators the notebooks call
    ([regexp_replace], [isin], [when/otherwise], [StringIndexer],
    [groupBy/agg], [np.select], ...) are written out as the functions
    they compute on the arguments the notebooks pass them. *)

From Stdlib Require Import Ascii QArith.
From stdpp Require Import base list strings gmap fin_maps sorting.

Local Open Scope string_scope.
Local Open Scope Z_scope.

(** ** Category normaliser (the [RaceClean] chain) *)

Module RaceNorm.

(** [regexp_replace(col, pat, rep)] for a pattern that is a literal,
    non-empty string: every leftmost, non-overlapping occurrence of [pat]
    is replaced by [rep].  [skip] counts the characters of a match that
    are still to be consumed. *)
Fixpoint replace_from (pat rep : string) (skip : nat) (s : string) : string :=
  match s with
  | EmptyString => EmptyString
  | String c s' =>
      match skip with
      | S k => replace_from pat rep k s'
      | O =>
          if String.prefix pat s
          then rep +:+ replace_from pat rep (Nat.pred (String.length pat)) s'
          else String c (replace_from pat rep O s')
      end
  end.

(** Spark: a null input gives a null output. *)
Definition regexp_replace (col : option string) (pat rep : string) : option string :=
  replace_from pat rep O <$> col.

(** The six patterns of the notebook, with the regular-expression escapes
    [\(] and [\)] read as the literal parentheses they denote. *)
Definition rules : list (string * string) :=
  [ ("(Non-Hispanic)", "");
    (" Caucasian", "");
    ("Asian Or", "Asian or");
    (" (Includes Not Applicable, Unknown)", "");
    ("(Includes Not Applicable, Unknown)", "");
    ("Other", "Unknown") ].

(** The chain of [withColumn('RaceClean', regexp_replace(...))] calls:
    the first reads [Race], each later one reads the previous result. *)
Definition RaceClean_of (race : option string) : option string :=
  foldl (fun acc '(pat, rep) => regexp_replace acc pat rep) race rules.

(** A raw string with its blanks removed: two strings with the same
    image differ only in incidental whitespace. *)
Fixpoint without_spaces (s : string) : string :=
  match s with
  | EmptyString => EmptyString
  | String c s' =>
      if Ascii.eqb c " "%char then without_spaces s' else String c (without_spaces s')
  end.

End RaceNorm.

(** ** Court records: label derivation

    The columns the notebooks read.  The circuit notebook calls them
    [Sex] and [ChargeType]; the district notebook has the same cells over
    [Gender] and [CaseType] and no [fips] stage. *)

Module Court.

Record Row := {
  Race : option string;
  Sex : option string;
  CodeSection : option string;
  fips : option string;
  ChargeType : option string
}.

(** [circuit] after the [withColumn('RaceClean', ...)] cells. *)
Record CleanRow := {
  row : Row;
  RaceClean : option string
}.

(** [data] after [withColumn('Felony', ...)]. *)
Record DataRow := {
  clean : CleanRow;
  Felony : Z
}.

(** Column expressions of Spark SQL: comparisons with a null operand are
    null. *)
Definition col_eq (c : option string) (lit : string) : option bool :=
  (fun v => bool_decide (v = lit)) <$> c.

Definition isin (c : option string) (lits : list string) : option bool :=
  (fun v => bool_decide (v ∈ lits)) <$> c.

(** [df.filter(cond)]: a row is kept when the condition is true, dropped
    when it is false or null. *)
Definition df_filter {A} (cond : A → option bool) (df : list A) : list A :=
  filter (fun r => cond r = Some true) df.

(** [F.when(cond, a).otherwise(b)]. *)
Definition when_otherwise {B} (cond : option bool) (a b : B) : B :=
  match cond with
  | Some true => a
  | _ => b
  end.

Definition withRaceClean (df : list Row) : list CleanRow :=
  (fun r => {| row := r; RaceClean := RaceNorm.RaceClean_of (Race r) |}) <$> df.

(** [data = circuit.filter(circuit.ChargeType.isin(['Misdemeanor', 'Felony']))] *)
Definition filter_ChargeType (circuit : list CleanRow) : list CleanRow :=
  df_filter (fun r => isin (ChargeType (row r)) ["Misdemeanor"; "Felony"]) circuit.

(** [data = data.withColumn('Felony',
             F.when(data.ChargeType == 'Felony', 1).otherwise(0))] *)
Definition withFelony (df : list CleanRow) : list DataRow :=
  (fun r => {| clean := r;
               Felony := when_otherwise (col_eq (ChargeType (row r)) "Felony") 1 0 |}) <$> df.

Definition data (circuit : list CleanRow) : list DataRow :=
  withFelony (filter_ChargeType circuit).

End Court.

(** ** Categorical encoder: [StringIndexer], [OneHotEncoder], [VectorAssembler] *)

Module Encoder.
Import Court.

(** A categorical predictor: the [StringIndexer(inputCol, outputCol,
    handleInvalid = "skip")] stage and the [OneHotEncoder] stage that
    reads its index column and writes [ohCol]. *)
Record Feature := {
  inputCol : DataRow → option string;
  ohCol : string
}.

Definition gendInd : Feature :=
  {| inputCol := fun r => Sex (row (clean r)); ohCol := "GenderOH" |}.
Definition raceInd : Feature :=
  {| inputCol := fun r => RaceClean (clean r); ohCol := "RaceOH" |}.
Definition chargeInd : Feature :=
  {| inputCol := fun r => CodeSection (row (clean r)); ohCol := "ChargeCodeOH" |}.
Definition fipsInd : Feature :=
  {| inputCol := fun r => fips (row (clean r)); ohCol := "FipsOH" |}.

(** *** Fitting an indexer *)

(** The frequency table of the fitting column ([countByValue]). *)
Definition countByValue (vals : list string) : gmap string nat :=
  foldr (fun v m => <[v := S (default O (m !! v))]> m) ∅ vals.

(** [sortBy(-count)]: descending frequency. *)
Definition by_count_desc : relation (string * nat) :=
  fun a b => (b.2 ≤ a.2)%nat.

#[global] Instance by_count_desc_dec a b : Decision (by_count_desc a b).
Proof. unfold by_count_desc. apply _. Defined.

#[global] Instance by_count_desc_trans : Transitive by_count_desc.
Proof. intros a b c. unfold by_count_desc. lia. Qed.

#[global] Instance by_count_desc_total : Total by_count_desc.
Proof. intros a b. unfold by_count_desc. lia. Qed.

(** [StringIndexer.fit]: nulls are dropped, the distinct values are
    counted and ordered by descending frequency (the default
    [frequencyDesc]); the order among values of equal frequency is the
    library's, here that of the table's enumeration. *)
Definition ranked (col : list (option string)) : list (string * nat) :=
  merge_sort by_count_desc (map_to_list (countByValue (omap id col))).

Definition fit_labels (col : list (option string)) : list string :=
  (ranked col).*1.

(** The frequency of a value in the fitting column. *)
Definition freq (col : list (option string)) (v : string) : nat :=
  length (filter (fun c => c = Some v) col).

(** The index of a value is its position in the fitted labels. *)
Definition label_index (labels : list string) (v : string) : option nat :=
  fst <$> list_find (eq v) labels.

Record IndexerModel := {
  feat : Feature;
  labels : list string
}.

(** *** Transforming *)

(** A row inside the pipeline: the source row and the index columns
    written so far, in stage order. *)
Record PRow := {
  base : DataRow;
  indices : list nat
}.

(** [StringIndexerModel.transform] with [handleInvalid = "skip"]: a row
    whose value is null or not among the labels is filtered out, the
    others receive their index. *)
Definition indexer_transform (m : IndexerModel) (df : list PRow) : list PRow :=
  omap (fun r =>
          (fun i => {| base := base r; indices := indices r ++ [i] |})
            <$> (inputCol (feat m) (base r) ≫= label_index (labels m))) df.

(** [Pipeline.fit] over the indexer stages: each stage is fitted on the
    dataset as transformed by the stages before it. *)
Fixpoint fit_stages (stages : list Feature) (df : list PRow) : list IndexerModel :=
  match stages with
  | [] => []
  | f :: rest =>
      let m := {| feat := f; labels := fit_labels ((inputCol f ∘ base) <$> df) |} in
      m :: fit_stages rest (indexer_transform m df)
  end.

(** [PipelineModel.transform] over the indexer stages. *)
Definition transform_stages (model : list IndexerModel) (df : list PRow) : list PRow :=
  foldl (fun cur m => indexer_transform m cur) df model.

Definition enter (df : list DataRow) : list PRow :=
  (fun r => {| base := r; indices := [] |}) <$> df.

(** [OneHotEncoder] with the default [dropLast]: a vector of one
    position per label but the last, with a one at the row's index. *)
Definition one_hot (size i : nat) : list Z :=
  (fun j => if bool_decide (j = i) then 1 else 0) <$> seq 0 (Nat.pred size).

(** The attribute names the assembler records for a one-hot block. *)
Definition oh_names (name : string) (labels : list string) : list string :=
  (fun l => name +:+ "_" +:+ l) <$> take (Nat.pred (length labels)) labels.

Record Encoded := {
  prow : PRow;
  features : list Z
}.

(** [OneHotEncoder(inputCol, outputCol)] reads the labels from the
    metadata of its input column and, with [dropLast], requires more
    than one of them: on a column with fewer than two labels it raises
    ("The input column ... should have at least two distinct values"),
    which [None] stands for. *)
Definition oh_encode (labels : list string) (i : nat) : option (list Z) :=
  if decide (2 ≤ length labels)%nat then Some (one_hot (length labels) i) else None.

(** Each indexer of the notebooks' pipelines is followed by its encoder,
    so a fitted pipeline can be run when every indexer has at least two
    labels. *)
Definition encodable (model : list IndexerModel) : Prop :=
  Forall (fun m => (2 ≤ length (labels m))%nat) model.

#[global] Instance encodable_dec model : Decision (encodable model).
Proof. unfold encodable. apply _. Defined.

(** [VectorAssembler(inputCols, handleInvalid = "skip")]: the one-hot
    blocks are concatenated in the order of [inputCols].  [None] stands
    for the exception Spark raises when a name is not a column, or the
    encoder's when the column has fewer than two labels. *)
Definition va_block (model : list IndexerModel) (r : PRow) (name : string)
  : option (list Z) :=
  '(k, m) ← list_find (fun m => ohCol (feat m) = name) model;
  i ← indices r !! k;
  oh_encode (labels m) i.

Definition va_row (inputCols : list string) (model : list IndexerModel) (r : PRow)
  : option Encoded :=
  (fun blocks => {| prow := r; features := mjoin blocks |})
    <$> mapM (va_block model r) inputCols.

Definition va_transform (inputCols : list string) (model : list IndexerModel)
    (df : list PRow) : option (list Encoded) :=
  mapM (va_row inputCols model) df.

Definition va_names (inputCols : list string) (model : list IndexerModel)
  : option (list string) :=
  mjoin <$> mapM (fun name =>
               (fun km => oh_names name (labels km.2))
                 <$> list_find (fun m => ohCol (feat m) = name) model) inputCols.

(** A pipeline up to the assembler: its indexer stages in order and
    the assembler's [inputCols]. *)
Record Pipeline := {
  stages : list Feature;
  va : list string
}.

(** [Pipeline(stages=[gendInd, gend, raceInd, race, chargeInd, charge,
                      fipsInd, fips, va, ...])] of the circuit notebook. *)
Definition pipeline : Pipeline :=
  {| stages := [gendInd; raceInd; chargeInd; fipsInd];
     va := ["RaceOH"; "ChargeCodeOH"; "FipsOH"; "GenderOH"] |}.

(** [Pipeline(stages=[gendInd, gend, raceInd, race, va, ...])] *)
Definition pipeline_mj : Pipeline :=
  {| stages := [gendInd; raceInd]; va := ["RaceOH"; "GenderOH"] |}.

(** The district notebook's pipeline (no [fips] stage). *)
Definition pipeline_district : Pipeline :=
  {| stages := [gendInd; raceInd; chargeInd];
     va := ["RaceOH"; "ChargeCodeOH"; "GenderOH"] |}.

Definition fit (p : Pipeline) (train : list DataRow) : list IndexerModel :=
  fit_stages (stages p) (enter train).

(** [model.transform(df)], and the transformation [pipeline.fit] runs
    on its own input.  The encoders check their input columns' labels
    before any row is read, so a model with an indexer of fewer than two
    labels fails on every dataframe, the empty one included. *)
Definition transform (p : Pipeline) (model : list IndexerModel) (df : list DataRow)
  : option (list Encoded) :=
  if decide (encodable model)
  then va_transform (va p) model (transform_stages model (enter df))
  else None.

(** A usable categorical value: non-missing and in the fitted
    vocabulary. *)
Definition in_vocab (labels : list string) (c : option string) : Prop :=
  ∃ v, c = Some v ∧ v ∈ labels.

#[global] Instance in_vocab_dec labels c : Decision (in_vocab labels c).
Proof.
  refine (match c with
          | Some v => cast_if (decide (v ∈ labels))
          | None => right _
          end); unfold in_vocab.
  - eauto.
  - intros (w & [= <-] & ?). done.
  - intros (w & ? & _). discriminate.
Defined.

Definition valid_row (model : list IndexerModel) (r : DataRow) : Prop :=
  Forall (fun m => in_vocab (labels m) (inputCol (feat m) r)) model.

#[global] Instance valid_row_dec model r : Decision (valid_row model r).
Proof. unfold valid_row. apply _. Defined.

End Encoder.

(** ** Classifier trainer: which data the printed metrics are computed on

    The optimiser and the metric formulas are the library's; they are
    parameters here.  What the notebook fixes is the dataflow: which
    dataframe is fitted and which one the summary is computed over. *)

Module Trainer.
Import Court Encoder.

Section Dataflow.
Context {LRModel Metrics : Type}.

(** [LogisticRegression(labelCol = 'Felony', elasticNetParam = 1)]'s
    optimiser over (features, label) points. *)
Variable lr_fit : list (list Z * Z) → LRModel.
(** The metrics of a summary (areaUnderROC, accuracy, weightedPrecision,
    weightedRecall) of a model over a set of points. *)
Variable evaluate : LRModel → list (list Z * Z) → Metrics.
(** [df.randomSplit([0.9, 0.1], 34)]. *)
Variable randomSplit : list DataRow → list DataRow * list DataRow.

Definition points (enc : list Encoded) : list (list Z * Z) :=
  (fun e => (features e, Felony (base (prow e)))) <$> enc.

(** A fitted [LogisticRegressionModel]: [summary] is the training
    summary, computed by [fit] over the points it was given. *)
Record LogisticRegressionModel := {
  coefficients : LRModel;
  summary : Metrics
}.

Definition logm_fit (enc : list Encoded) : LogisticRegressionModel :=
  {| coefficients := lr_fit (points enc);
     summary := evaluate (lr_fit (points enc)) (points enc) |}.

Record PipelineModel := {
  indexers : list IndexerModel;
  logm : LogisticRegressionModel
}.

(** [pipeline.fit(df)]: the indexers, then the regression on the
    encoded rows of [df]. *)
Definition Pipeline_fit (p : Pipeline) (df : list DataRow) : option PipelineModel :=
  let ms := Encoder.fit p df in
  enc ← Encoder.transform p ms df;
  Some {| indexers := ms; logm := logm_fit enc |}.

(** The metrics of a fitted pipeline over a dataframe [df]. *)
Definition metrics_on (p : Pipeline) (model : PipelineModel) (df : list DataRow)
  : option Metrics :=
  enc ← Encoder.transform p (indexers model) df;
  Some (evaluate (coefficients (logm model)) (points enc)).

(** The full-data model of the circuit notebook:
    [train, test = data.randomSplit(weights, seed)];
    [model = pipeline.fit(data)];
    [trainingSummary = model.stages[-1].summary] and the printed
    [areaUnderROC], [accuracy], [weightedPrecision], [weightedRecall]. *)
Definition circuit_full_metrics (data : list DataRow) : option Metrics :=
  let '(train, test) := randomSplit data in
  model ← Pipeline_fit pipeline data;
  Some (summary (logm model)).

(** The marijuana model of the circuit notebook:
    [data_mj = data.filter(data.CodeSection.isin(['18.2-248.1']))];
    [train, test = data_mj.randomSplit(weights, seed)];
    [model_mj = pipeline_mj.fit(train)];
    [pred_mj = model_mj.transform(test)];
    [trainingSummary = model_mj.stages[-1].summary]. *)
Definition data_mj (data : list DataRow) : list DataRow :=
  df_filter (fun r => isin (CodeSection (row (clean r))) ["18.2-248.1"]) data.

Definition circuit_mj_metrics (data : list DataRow) : option Metrics :=
  let '(train, test) := randomSplit (data_mj data) in
  model_mj ← Pipeline_fit pipeline_mj train;
  pred_mj ← Encoder.transform pipeline_mj (indexers model_mj) test;
  Some (summary (logm model_mj)).

(** The district notebook: no split, [model = pipeline.fit(data)]. *)
Definition district_metrics (data : list DataRow) : option Metrics :=
  model ← Pipeline_fit pipeline_district data;
  Some (summary (logm model)).

(** What a held-out evaluation of the full-data circuit model would
    report: the fitted model's metrics over the held-out part of the
    split. *)
Definition heldout_metrics (data : list DataRow) : option Metrics :=
  let '(train, test) := randomSplit data in
  model ← Pipeline_fit pipeline data;
  metrics_on pipeline model test.

(** The same for the marijuana model: fitted on the training part,
    evaluated over the held-out part. *)
Definition heldout_metrics_mj (data : list DataRow) : option Metrics :=
  let '(train, test) := randomSplit (data_mj data) in
  model_mj ← Pipeline_fit pipeline_mj train;
  metrics_on pipeline_mj model_mj test.

End Dataflow.

(** A concrete learner to run the dataflow on: it always predicts
    felony, and its metric is the pair (correct predictions, rows). *)
Definition always_felony (pts : list (list Z * Z)) : unit := tt.
Definition hits (m : unit) (pts : list (list Z * Z)) : nat * nat :=
  (length (filter (fun p => p.2 = 1) pts), length pts).
(** A split that holds out the last row. *)
Definition split_last (df : list DataRow) : list DataRow * list DataRow :=
  (take (Nat.pred (length df)) df, drop (Nat.pred (length df)) df).

End Trainer.

(** ** Cross-tabulation of felony rates by normalised race *)

Module Crosstab.
Import Court.

(** The rows of the group of key [k]. *)
Definition group_rows (key : DataRow → option string) (k : option string)
    (df : list DataRow) : list DataRow :=
  filter (fun r => key r = k) df.

(** [df.groupBy(key)]: one group per distinct key value, null included.
    Spark leaves the order of the groups unspecified; here it is the
    order of first occurrence. *)
Definition groupBy (key : DataRow → option string) (df : list DataRow)
  : list (option string * list DataRow) :=
  (fun k => (k, group_rows key k df)) <$> remove_dups (key <$> df).

(** [F.count(col)]: the number of non-null values of the column. *)
Definition F_count (col : list (option string)) : Z :=
  Z.of_nat (length (omap id col)).

Definition sum_Z (col : list Z) : Z := foldr Z.add 0 col.

(** [F.sum(col)]: null over no rows. *)
Definition F_sum (col : list Z) : option Z :=
  match col with
  | [] => None
  | _ => Some (sum_Z col)
  end.

Record FelRow := {
  RaceClean_key : option string;
  count : Z;
  n_felonies : option Z
}.

(** [fel = df.groupBy('RaceClean').agg(F.count(data.RaceClean).alias('count'),
                                      F.sum(data.Felony).alias('n_felonies'))] *)
Definition fel (df : list DataRow) : list FelRow :=
  (fun g => {| RaceClean_key := g.1;
               count := F_count ((fun r => RaceClean (clean r)) <$> g.2);
               n_felonies := F_sum (Felony <$> g.2) |})
    <$> groupBy (fun r => RaceClean (clean r)) df.

(** Spark's [/]: null when an operand is null or the divisor is zero.
    The quotient is kept exact here; Spark rounds it to a double. *)
Definition divide (a : option Z) (b : Z) : option Q :=
  n ← a; if decide (b = 0) then None else Some (Qmake n (Z.to_pos b)).

Record PercentRow := {
  fel_row : FelRow;
  percent : option Q
}.

(** [fel.withColumn('percent', fel['n_felonies']/fel['count'])] *)
Definition withPercent (fel : list FelRow) : list PercentRow :=
  (fun g => {| fel_row := g; percent := divide (n_felonies g) (count g) |}) <$> fel.

Definition crosstab (data : list DataRow) : list PercentRow :=
  withPercent (fel data).

(** The second cross-tab cell: the same over
    [data.filter(data.CodeSection == '18.2-248.1')]. *)
Definition crosstab_charge (data : list DataRow) : list PercentRow :=
  withPercent (fel (df_filter (fun r => col_eq (CodeSection (row (clean r))) "18.2-248.1") data)).

End Crosstab.

(** The same cross-tabulation with the rate as Spark computes it: the
    two [bigint] columns are cast to [double] and divided as doubles.
    The type of doubles and that division are the library's and are
    parameters here; what the notebook's cell fixes is which two numbers
    are divided and when the result is null. *)
Module Rate.
Import Court.

Section Rate.
Context {Double : Type}.

(** The double quotient of two integers, the second not zero. *)
Variable fdiv : Z → Z → Double.

(** Spark's [/]: null when an operand is null or the divisor is zero. *)
Definition divide (a : option Z) (b : Z) : option Double :=
  n ← a; if decide (b = 0) then None else Some (fdiv n b).

Record PercentRow := {
  fel_row : Crosstab.FelRow;
  percent : option Double
}.

(** [fel.withColumn('percent', fel['n_felonies']/fel['count'])] *)
Definition withPercent (fel : list Crosstab.FelRow) : list PercentRow :=
  (fun g => {| fel_row := g;
               percent := divide (Crosstab.n_felonies g) (Crosstab.count g) |}) <$> fel.

Definition crosstab (data : list DataRow) : list PercentRow :=
  withPercent (Crosstab.fel data).

End Rate.

Arguments PercentRow : clear implicits.

End Rate.

(** ** Census cleaning *)

Module Census.

(** A record of [cc-est2019-alldata-51.csv]: the seven leading columns
    and the 73 population counts [TOT_POP .. HNAC_FEMALE]. *)
Record Row := {
  SUMLEV : Z;
  STATE : Z;
  COUNTY : Z;
  STNAME : string;
  CTYNAME : string;
  YEAR : Z;
  AGEGRP : Z;
  POP : list Z
}.

(** A record of [va_census_clean.csv] (78 columns). *)
Record CleanRow := {
  STATE' : Z;
  COUNTY' : Z;
  STNAME' : string;
  CTYNAME' : string;
  YEAR' : Z;
  POP' : list Z
}.

(** [df[mask]] for a boolean mask aligned with the rows. *)
Definition boolean_index {A} (df : list A) (mask : list bool) : list A :=
  (filter (fun rb => rb.2 = true) (zip df mask)).*1.

(** [census[(census['AGEGRP']==0) & (census['YEAR'] >= 3)].copy()] *)
Definition filter_rows (census : list Row) : list Row :=
  boolean_index census
    (zip_with andb ((fun r => bool_decide (AGEGRP r = 0)) <$> census)
                   ((fun r => bool_decide (3 ≤ YEAR r)) <$> census)).

(** [np.select(condlist, choicelist, default=0)] over arrays of length
    [n]: at each position the choice of the first condition that holds
    there, else the default. *)
Definition np_select (condlist : list (list bool)) (choicelist : list Z)
    (default : Z) (n : nat) : list Z :=
  foldr (fun cx acc => zip_with (fun (b : bool) d => if b then cx.2 else d) cx.1 acc)
        (replicate n default) (zip condlist choicelist).

Definition codes : list Z := [3; 4; 5; 6; 7; 8; 9; 10; 11; 12].

(** [conditions = [census_clean['YEAR'] == 3, ..., census_clean['YEAR'] == 12]] *)
Definition conditions (df : list Row) : list (list bool) :=
  (fun c => (fun r => bool_decide (YEAR r = c)) <$> df) <$> codes.

Definition choices : list Z :=
  [2010; 2011; 2012; 2013; 2014; 2015; 2016; 2017; 2018; 2019].

Definition set_YEAR (r : Row) (y : Z) : Row :=
  {| SUMLEV := SUMLEV r; STATE := STATE r; COUNTY := COUNTY r;
     STNAME := STNAME r; CTYNAME := CTYNAME r; YEAR := y;
     AGEGRP := AGEGRP r; POP := POP r |}.

(** [census_clean['YEAR'] = np.select(conditions, choices)] *)
Definition recode_YEAR (df : list Row) : list Row :=
  zip_with set_YEAR df (np_select (conditions df) choices 0 (length df)).

(** [census_clean.drop(['SUMLEV', 'AGEGRP'], axis = 1)] *)
Definition drop_columns (r : Row) : CleanRow :=
  {| STATE' := STATE r; COUNTY' := COUNTY r; STNAME' := STNAME r;
     CTYNAME' := CTYNAME r; YEAR' := YEAR r; POP' := POP r |}.

Definition census_clean (census : list Row) : list CleanRow :=
  drop_columns <$> recode_YEAR (filter_rows census).

(** [np.select] read at one row: the choice of the first code equal to
    the row's year code, else the default. *)
Definition first_choice (y : Z) : Z :=
  foldr (fun cx acc => if bool_decide (y = cx.1) then cx.2 else acc) 0
        (zip codes choices).

(** The number of conditions that hold at position [i]. *)
Definition matches_at (condlist : list (list bool)) (i : nat) : nat :=
  length (filter (fun c => c !! i = Some true) condlist).

End Census.

(** ** Sample inputs *)

Module Sample.
Import Court.

Definition mk (race sex code county type : option string) : Row :=
  {| Race := race; Sex := sex; CodeSection := code; fips := county;
     ChargeType := type |}.

(** Five records in the shape of the circuit files: one with a null
    race, one that is neither a felony nor a misdemeanor. *)
Definition circuit_raw : list Row :=
  [ mk (Some "White Caucasian(Non-Hispanic)") (Some "Male") (Some "18.2-248.1")
       (Some "3") (Some "Felony");
    mk (Some "Black(Non-Hispanic)") (Some "Female") (Some "18.2-248.1")
       (Some "3") (Some "Misdemeanor");
    mk None (Some "Male") (Some "18.2-250") (Some "3") (Some "Felony");
    mk (Some "White Caucasian (Non-Hispanic)") (Some "Male") (Some "18.2-95")
       (Some "760") (Some "Dismissed");
    mk (Some "Hispanic") (Some "Male") (Some "18.2-95") (Some "3") (Some "Felony") ].

Definition circuit : list CleanRow := withRaceClean circuit_raw.

Definition data : list DataRow := Court.data circuit.

(** A record whose race does not occur in [data]. *)
Definition unseen : list DataRow :=
  Court.data (withRaceClean
    [ mk (Some "American Indian") (Some "Male") (Some "18.2-95") (Some "3")
         (Some "Felony") ]).

(** Nine records on which the pipelines can be fitted: among the rows
    that reach each indexer there are two sexes, three races, two code
    sections and two counties, no two of them equally frequent; the same
    holds of the sexes and races among the rows of the charge 18.2-248.1
    but the last. *)
Definition fit_raw : list Row :=
  [ mk (Some "White Caucasian(Non-Hispanic)") (Some "Male") (Some "18.2-248.1")
       (Some "3") (Some "Felony");
    mk (Some "Black(Non-Hispanic)") (Some "Female") (Some "18.2-248.1")
       (Some "760") (Some "Misdemeanor");
    mk None (Some "Male") (Some "18.2-250") (Some "3") (Some "Felony");
    mk (Some "White Caucasian (Non-Hispanic)") (Some "Male") (Some "18.2-95")
       (Some "760") (Some "Dismissed");
    mk (Some "Hispanic") (Some "Male") (Some "18.2-95") (Some "3") (Some "Felony");
    mk (Some "White Caucasian(Non-Hispanic)") (Some "Male") (Some "18.2-248.1")
       (Some "3") (Some "Misdemeanor");
    mk (Some "White Caucasian(Non-Hispanic)") (Some "Male") (Some "18.2-248.1")
       (Some "3") (Some "Felony");
    mk (Some "White Caucasian(Non-Hispanic)") (Some "Male") (Some "18.2-248.1")
       (Some "3") (Some "Misdemeanor");
    mk (Some "Black(Non-Hispanic)") (Some "Male") (Some "18.2-95")
       (Some "760") (Some "Felony") ].

Definition fit_data : list DataRow := Court.data (withRaceClean fit_raw).

Definition fit_test : list DataRow := (fit_data ++ unseen)%list.

Definition census : list Census.Row :=
  [ {| Census.SUMLEV := 50; Census.STATE := 51; Census.COUNTY := 1;
       Census.STNAME := "Virginia"; Census.CTYNAME := "Accomack County";
       Census.YEAR := 1; Census.AGEGRP := 0; Census.POP := [33164; 16148; 17016] |};
    {| Census.SUMLEV := 50; Census.STATE := 51; Census.COUNTY := 1;
       Census.STNAME := "Virginia"; Census.CTYNAME := "Accomack County";
       Census.YEAR := 3; Census.AGEGRP := 0; Census.POP := [33148; 16152; 16996] |};
    {| Census.SUMLEV := 50; Census.STATE := 51; Census.COUNTY := 1;
       Census.STNAME := "Virginia"; Census.CTYNAME := "Accomack County";
       Census.YEAR := 3; Census.AGEGRP := 1; Census.POP := [2005; 1012; 993] |};
    {| Census.SUMLEV := 50; Census.STATE := 51; Census.COUNTY := 1;
       Census.STNAME := "Virginia"; Census.CTYNAME := "Accomack County";
       Census.YEAR := 12; Census.AGEGRP := 0; Census.POP := [32316; 15709; 16607] |} ].

(** A well-formed record (integer columns) with a year code above the
    twelve of the data dictionary. *)
Definition census_code13 : list Census.Row :=
  [ {| Census.SUMLEV := 50; Census.STATE := 51; Census.COUNTY := 1;
       Census.STNAME := "Virginia"; Census.CTYNAME := "Accomack County";
       Census.YEAR := 13; Census.AGEGRP := 0; Census.POP := [32000; 15500; 16500] |} ].

End Sample.

(** Three records of one charge: the first two agree on sex and race and
    differ in their charge type. *)
Module SampleMj.
Import Court.

Definition data : list DataRow :=
  Court.data (withRaceClean
    [ Sample.mk (Some "White Caucasian(Non-Hispanic)") (Some "Male") (Some "18.2-248.1")
        (Some "3") (Some "Felony");
      Sample.mk (Some "White Caucasian(Non-Hispanic)") (Some "Male") (Some "18.2-248.1")
        (Some "760") (Some "Misdemeanor");
      Sample.mk (Some "Black(Non-Hispanic)") (Some "Female") (Some "18.2-248.1")
        (Some "3") (Some "Felony") ]).

End SampleMj.

(** ** The remaining cells of the notebooks *)

(** *** Occurrences of a literal pattern *)

Module Text.

(** Whether [pat] occurs in [s] as a substring. *)
Fixpoint occurs (pat s : string) : bool :=
  String.prefix pat s
  || match s with
     | EmptyString => false
     | String _ s' => occurs pat s'
     end.

End Text.

(** *** Schema with numeric columns *)

Module Schema.

Inductive DataType := StringType | IntegerType | DoubleType.

#[global] Instance DataType_eq_dec : EqDecision DataType.
Proof. solve_decision. Defined.

Record StructField := {
  name : string;
  dataType : DataType;
  nullable : bool
}.

(** [for f in schema: if f["name"] in numeric:
         fields.append(StructField(f["name"], DoubleType(), True))
       else: fields.append(StructField.fromJson(f))]
    ([fromJson] of a field's own JSON gives the field back). *)
Definition with_numeric (numeric : list string) (schema : list StructField)
  : list StructField :=
  (fun f => if bool_decide (name f ∈ numeric)
            then {| name := name f; dataType := DoubleType; nullable := true |}
            else f) <$> schema.

(** The list of the circuit notebook. *)
Definition numeric_circuit : list string :=
  ["SentenceTime"; "ProbationTime"; "Costs"; "FineAmount"; "FineCostsPaid"].

(** The list of the district notebook. *)
Definition numeric_district : list string :=
  ["SentenceTime"; "ProbationTime"; "Fine"; "Costs"; "FineCostsDue"; "FineCostsPaid"].

(** The header of the circuit files, as printed by [circuit.take(2)]. *)
Definition circuit_columns : list string :=
  [ "HearingDate"; "HearingResult"; "HearingJury"; "HearingPlea"; "HearingType";
    "HearingRoom"; "fips"; "Filed"; "Commencedby"; "Locality"; "Sex"; "Race";
    "Address"; "Charge"; "CodeSection"; "ChargeType"; "Class"; "OffenseDate";
    "ArrestDate"; "DispositionCode"; "DispositionDate"; "ConcludedBy";
    "AmendedCharge"; "AmendedCodeSection"; "AmendedChargeType"; "JailPenitentiary";
    "ConcurrentConsecutive"; "LifeDeath"; "SentenceTime"; "SentenceSuspended";
    "OperatorLicenseSuspensionTime"; "FineAmount"; "Costs"; "FinesCostPaid";
    "ProgramType"; "ProbationType"; "ProbationTime"; "ProbationStarts";
    "CourtDMVSurrender"; "DriverImprovementClinic"; "DrivingRestrictions";
    "RestrictionEffectiveDate"; "RestrictionEndDate"; "VAAlcoholSafetyAction";
    "RestitutionPaid"; "RestitutionAmount"; "Military"; "TrafficFatality";
    "AppealedDate"; "person_id" ].

(** Lower case, as the CSV reader compares header names. *)
Definition lower_ascii (c : ascii) : ascii :=
  let n := nat_of_ascii c in
  if (Nat.leb 65 n && Nat.leb n 90)%bool then ascii_of_nat (n + 32) else c.

Fixpoint lower (s : string) : string :=
  match s with
  | EmptyString => EmptyString
  | String c s' => String (lower_ascii c) (lower s')
  end.

(** The schema of the first read of the circuit files ([header = true],
    no type inference): one nullable string column per name of the
    header.  The reader renames a name that is empty or that occurs
    twice when case is ignored; the fifty names of these files are
    neither, so they are taken as they are. *)
Definition circuit_schema : list StructField :=
  (fun n => {| name := n; dataType := StringType; nullable := true |}) <$> circuit_columns.

End Schema.

(** *** Ranked feature importances *)

Module Report.

(** The key [lambda x: -x[0]] in ascending order, that is descending
    importance.  Importances are finite non-negative doubles; they are
    kept as the rationals they denote, whose order is the same. *)
Definition by_importance_desc : relation (Q * string) :=
  fun a b => Qle (Qopp a.1) (Qopp b.1).

#[global] Instance by_importance_desc_dec a b : Decision (by_importance_desc a b).
Proof. unfold by_importance_desc, Qle. apply _. Defined.

#[global] Instance by_importance_desc_trans : Transitive by_importance_desc.
Proof. intros a b c. unfold by_importance_desc. apply Qle_trans. Qed.

#[global] Instance by_importance_desc_total : Total by_importance_desc.
Proof.
  intros a b. unfold by_importance_desc.
  destruct (Qlt_le_dec (Qopp b.1) (Qopp a.1)) as [H|H]; [|by left].
  right. by apply Qlt_le_weak.
Qed.

#[global] Instance Qeq_decision (q r : Q) : Decision (Qeq q r) := Qeq_dec q r.

(** [list.sort] is a stable sort, and a stable sort has one result; it
    is written here as an insertion sort that puts an entry before the
    first later entry that does not precede it. *)
Fixpoint insert_by (x : Q * string) (l : list (Q * string)) : list (Q * string) :=
  match l with
  | [] => [x]
  | y :: l' =>
      if decide (by_importance_desc x y) then x :: l else y :: insert_by x l'
  end.

Definition sort_by_importance (l : list (Q * string)) : list (Q * string) :=
  foldr insert_by [] l.

(** [feat_imp = list(zip(model_rf.stages[-1].featureImportances.toArray(),
                         feature_names))];
    [feat_imp.sort(key = lambda x: -x[0])]. *)
Definition feat_imp (importances : list Q) (feature_names : list string)
  : list (Q * string) :=
  sort_by_importance (zip importances feature_names).

End Report.

(** *** The 2019 slice of the census table *)

Module Census19.
Import Census.

(** [census19 = census[census['YEAR']==12]];
    [census19 = census19[census19['AGEGRP']==0]]. *)
Definition census19 (census : list Row) : list Row :=
  let census19 := boolean_index census ((fun r => bool_decide (YEAR r = 12)) <$> census) in
  boolean_index census19 ((fun r => bool_decide (AGEGRP r = 0)) <$> census19).

End Census19.

(** * Properties *)

(** ** Category normaliser *)

Section RaceNormFacts.
Import RaceNorm.

Example replace_from_overlap : replace_from "aa" "b" O "aaa" = "ba".
Proof. reflexivity. Qed.

Example RaceClean_null : RaceClean_of None = None.
Proof. reflexivity. Qed.

Example RaceClean_unmatched : RaceClean_of (Some "Hispanic") = Some "Hispanic".
Proof. reflexivity. Qed.

Example RaceClean_other :
  RaceClean_of (Some "Other (Includes Not Applicable, Unknown)") = Some "Unknown".
Proof. reflexivity. Qed.

(** Only the literal [Asian Or] is rewritten: the [Or] of the second
    American Indian category stays, as in the notebook's cross-tab. *)
Example RaceClean_american_indian :
  RaceClean_of (Some "American Indian Or Alaskan Native")
  = Some "American Indian Or Alaskan Native".
Proof. reflexivity. Qed.

(** The chain is a [foldl] of single replacements. *)
Lemma RaceClean_of_Some s :
  RaceClean_of (Some s)
  = Some (foldl (fun acc '(pat, rep) => replace_from pat rep O acc) s rules).
Proof. reflexivity. Qed.

(** Outside the example set one pass can expose a new match, so the
    chain is not idempotent on every string. *)
Example RaceClean_not_idempotent_in_general :
  RaceClean_of (Some "(Non-(Non-Hispanic)Hispanic)") = Some "(Non-Hispanic)"
  ∧ RaceClean_of (Some "(Non-Hispanic)") = Some "".
Proof. split; reflexivity. Qed.

End RaceNormFacts.

(** C3: on the fixed example set the race-normalisation chain gives
    'White', 'Black' and 'Asian or Pacific Islander', and applying the
    chain a second time to each result changes nothing. *)
Theorem C3_RaceClean_idempotent_on_examples :
  Forall (fun '(raw, norm) =>
            RaceNorm.RaceClean_of (Some raw) = Some norm
            ∧ RaceNorm.RaceClean_of (RaceNorm.RaceClean_of (Some raw))
              = RaceNorm.RaceClean_of (Some raw))
    [ ("White Caucasian(Non-Hispanic)", "White");
      ("Black(Non-Hispanic)", "Black");
      ("Asian Or Pacific Islander", "Asian or Pacific Islander") ].
Proof.
  repeat (apply List.Forall_cons; [split; vm_compute; reflexivity|]).
  apply List.Forall_nil.
Qed.

(** C4: the normaliser does not collapse whitespace variants: the raw
    strings 'White Caucasian (Non-Hispanic)' and
    'White Caucasian(Non-Hispanic)' differ only in a blank, and their
    normalised values 'White ' (trailing blank) and 'White' are distinct. *)
Theorem C4_RaceClean_keeps_whitespace_variants :
  ∃ a b : string,
    RaceNorm.without_spaces a = RaceNorm.without_spaces b
    ∧ RaceNorm.RaceClean_of (Some a) = Some "White "
    ∧ RaceNorm.RaceClean_of (Some b) = Some "White"
    ∧ RaceNorm.RaceClean_of (Some a) ≠ RaceNorm.RaceClean_of (Some b).
Proof.
  exists "White Caucasian (Non-Hispanic)", "White Caucasian(Non-Hispanic)".
  split; [vm_compute; reflexivity|].
  split; [vm_compute; reflexivity|].
  split; [vm_compute; reflexivity|].
  vm_compute. discriminate.
Qed.

(** ** Label derivation *)

Section CourtFacts.
Import Court.

Lemma isin_true c lits : isin c lits = Some true ↔ ∃ v, c = Some v ∧ v ∈ lits.
Proof.
  unfold isin. destruct c as [v|]; simpl.
  - destruct (bool_decide_reflect (v ∈ lits)) as [H|H]; split.
    + eauto.
    + done.
    + discriminate.
    + intros (w & [= <-] & Hw). done.
  - split; [discriminate | intros (? & ? & _); discriminate].
Qed.

Lemma col_eq_true c lit : col_eq c lit = Some true ↔ c = Some lit.
Proof.
  unfold col_eq. destruct c as [v|]; simpl; [|done].
  destruct (bool_decide_reflect (v = lit)); split; congruence.
Qed.

Lemma elem_of_df_filter {A} (cond : A → option bool) df r :
  r ∈ df_filter cond df ↔ r ∈ df ∧ cond r = Some true.
Proof. unfold df_filter. rewrite list_elem_of_filter. tauto. Qed.

Lemma filter_ChargeType_spec circuit r :
  r ∈ filter_ChargeType circuit
  ↔ r ∈ circuit ∧ (ChargeType (row r) = Some "Misdemeanor"
                   ∨ ChargeType (row r) = Some "Felony").
Proof.
  unfold filter_ChargeType. rewrite elem_of_df_filter, isin_true.
  split.
  - intros (Hin & v & -> & Hv). split; [done|].
    apply list_elem_of_In in Hv. simpl in Hv.
    destruct Hv as [<- | [<- | []]]; auto.
  - intros (Hin & [H | H]); (split; [done|]); rewrite H;
      eexists; (split; [reflexivity|]); apply list_elem_of_In; simpl; auto.
Qed.

Lemma clean_data circuit : clean <$> data circuit = filter_ChargeType circuit.
Proof.
  unfold data, withFelony. rewrite <- list_fmap_compose.
  apply list_fmap_id.
Qed.

Lemma Felony_data circuit d :
  d ∈ data circuit →
  Felony d = if decide (ChargeType (row (clean d)) = Some "Felony") then 1 else 0.
Proof.
  unfold data, withFelony. intros (r & -> & _)%list_elem_of_fmap. simpl.
  case_decide as H.
  - apply col_eq_true in H. by rewrite H.
  - unfold when_otherwise. destruct (col_eq _ _) as [[]|] eqn:E; try done.
    by apply col_eq_true in E.
Qed.

(** The scenario of the label step on the sample: the felony rows get 1,
    the misdemeanor row 0, the 'Dismissed' row is left out. *)
Example data_sample :
  (fun d => (ChargeType (row (clean d)), Felony d)) <$> Sample.data
  = [ (Some "Felony", 1); (Some "Misdemeanor", 0); (Some "Felony", 1);
      (Some "Felony", 1) ].
Proof. vm_compute. reflexivity. Qed.

(** The comparison is exact: another spelling, or a null, is left out. *)
Example data_case_sensitive :
  data (withRaceClean
          [ Sample.mk (Some "White") (Some "Male") (Some "18.2-95") (Some "3") (Some "felony");
            Sample.mk (Some "White") (Some "Male") (Some "18.2-95") (Some "3") None ])
  = [].
Proof. vm_compute. reflexivity. Qed.

End CourtFacts.

(** ** String indexer *)

Section IndexerFacts.
Import Court Encoder.

Lemma countByValue_lookup vals v :
  countByValue vals !! v
  = match length (filter (eq v) vals) with
    | O => None
    | S n => Some (S n)
    end.
Proof.
  induction vals as [|w vals IH]; simpl.
  - apply lookup_empty.
  - rewrite lookup_insert, filter_cons. destruct (decide (w = v)) as [->|Hne].
    + rewrite decide_True by done. simpl. rewrite IH.
      by destruct (length (filter (eq v) vals)).
    + rewrite decide_False by congruence. apply IH.
Qed.

Lemma freq_omap col v : length (filter (eq v) (omap id col)) = freq col v.
Proof.
  unfold freq. induction col as [|[w|] col IH]; [done|..].
  - change (omap id (Some w :: col)) with (w :: omap id col).
    rewrite !filter_cons. destruct (decide (v = w)) as [->|Hne].
    + rewrite decide_True by done. simpl. by rewrite IH.
    + rewrite decide_False by congruence. done.
  - change (omap id (None :: col)) with (omap id col).
    rewrite filter_cons, decide_False by done. done.
Qed.

Lemma freq_pos col v : (0 < freq col v)%nat ↔ Some v ∈ col.
Proof.
  unfold freq. split.
  - intros H. destruct (filter _ col) as [|c l] eqn:E; [simpl in H; lia|].
    assert (Hc : c ∈ filter (λ c, c = Some v) col) by (rewrite E; left).
    apply list_elem_of_filter in Hc as [-> ?]. done.
  - intros H. assert (Hc : Some v ∈ filter (λ c, c = Some v) col)
      by (by apply list_elem_of_filter).
    destruct (filter _ col); [by apply elem_of_nil in Hc | simpl; lia].
Qed.

Lemma fit_labels_ranked col : fit_labels col = (ranked col).*1.
Proof. reflexivity. Qed.

Lemma elem_of_ranked col v n :
  (v, n) ∈ ranked col ↔ n = freq col v ∧ (0 < n)%nat.
Proof.
  unfold ranked. rewrite merge_sort_Permutation, elem_of_map_to_list.
  rewrite countByValue_lookup, freq_omap.
  destruct (freq col v); split; intros H; try discriminate; try lia.
  - injection H as <-. lia.
  - f_equal. lia.
Qed.

Lemma NoDup_fit_labels col : NoDup (fit_labels col).
Proof.
  rewrite fit_labels_ranked. unfold ranked.
  rewrite merge_sort_Permutation. apply NoDup_fst_map_to_list.
Qed.

Lemma elem_of_fit_labels col v : v ∈ fit_labels col ↔ Some v ∈ col.
Proof.
  rewrite fit_labels_ranked, <- freq_pos, list_elem_of_fmap. split.
  - intros ([w n] & -> & H). by apply elem_of_ranked in H as [-> ?].
  - intros H. exists (v, freq col v). split; [done|]. by apply elem_of_ranked.
Qed.

Lemma StronglySorted_lookup {A} (R : relation A) l i j x y :
  StronglySorted R l → l !! i = Some x → l !! j = Some y → (i < j)%nat → R x y.
Proof.
  intros Hl. revert i j. induction Hl as [|a l Hl IH Ha]; intros i j Hi Hj Hlt.
  - done.
  - destruct j as [|j]; [lia|]. destruct i as [|i]; simpl in *.
    + injection Hi as ->. eapply Forall_forall; [exact Ha|].
      eapply list_elem_of_lookup_2; eauto.
    + eapply IH; eauto. lia.
Qed.

Lemma label_index_Some labels v i :
  NoDup labels → label_index labels v = Some i ↔ labels !! i = Some v.
Proof.
  intros Hnd. unfold label_index. rewrite fmap_Some. split.
  - intros ([j w] & (Hj & <- & _)%list_find_Some & ->). done.
  - intros Hi. exists (i, v). split; [|done]. apply list_find_Some.
    split_and!; [done..|]. intros j y Hj Hlt ->.
    pose proof (NoDup_lookup _ _ _ _ Hnd Hi Hj). lia.
Qed.

Lemma fit_labels_lookup col i v :
  fit_labels col !! i = Some v → ranked col !! i = Some (v, freq col v).
Proof.
  rewrite fit_labels_ranked, list_lookup_fmap, fmap_Some.
  intros ([w n] & Hi & ->). simpl.
  pose proof (list_elem_of_lookup_2 _ _ _ Hi) as Hin.
  apply elem_of_ranked in Hin as [-> _]. done.
Qed.

Lemma fit_labels_order col v w i j :
  fit_labels col !! i = Some v → fit_labels col !! j = Some w →
  (freq col w < freq col v)%nat → (i < j)%nat.
Proof.
  intros Hi%fit_labels_lookup Hj%fit_labels_lookup Hlt.
  destruct (decide (i < j)%nat) as [|Hge]; [done|].
  destruct (decide (i = j)) as [->|Hne].
  - rewrite Hi in Hj. injection Hj as -> _. lia.
  - assert (Hs : StronglySorted by_count_desc (ranked col))
      by (unfold ranked; apply StronglySorted_merge_sort; apply _).
    pose proof (StronglySorted_lookup _ _ j i _ _ Hs Hj Hi ltac:(lia)) as HR.
    unfold by_count_desc in HR. simpl in HR. lia.
Qed.

Lemma oh_names_lookup name labels i :
  (S i < length labels)%nat →
  oh_names name labels !! i = (fun l => name +:+ "_" +:+ l) <$> labels !! i.
Proof.
  intros Hi. unfold oh_names. rewrite list_lookup_fmap, lookup_take_lt by lia. done.
Qed.

(** Frequencies 3, 2, 1 give the indices 0, 1, 2; the null is not a label. *)
Example fit_labels_sample :
  fit_labels [Some "b"; None; Some "a"; Some "a"; Some "c"; Some "c"; Some "c"]
  = ["c"; "a"; "b"].
Proof. vm_compute. reflexivity. Qed.

Lemma length_oh_names name labels :
  length (oh_names name labels) = Nat.pred (length labels).
Proof. unfold oh_names. rewrite length_fmap, length_take. lia. Qed.

End IndexerFacts.

(** ** Pipeline of indexers and the assembler *)

Section PipelineFacts.
Import Court Encoder.

Lemma label_index_is_Some labels v : is_Some (label_index labels v) ↔ v ∈ labels.
Proof.
  unfold label_index. rewrite fmap_is_Some. split.
  - intros [[i w] (Hi & <- & _)%list_find_Some].
    by eapply list_elem_of_lookup_2.
  - intros Hv. by eapply list_find_elem_of.
Qed.

Lemma in_vocab_index labels c :
  in_vocab labels c ↔ is_Some (c ≫= label_index labels).
Proof.
  unfold in_vocab. destruct c as [v|]; simpl.
  - rewrite label_index_is_Some. split.
    + by intros (w & [= <-] & Hw).
    + eauto.
  - split; [intros (? & ? & _); discriminate | by intros [? ?]].
Qed.

Lemma omap_cons {A B} (f : A → option B) x l :
  omap f (x :: l) = match f x with Some y => y :: omap f l | None => omap f l end.
Proof. reflexivity. Qed.

Lemma filter_all {A} (P : A → Prop) `{!∀ x, Decision (P x)} (l : list A) :
  (∀ x, P x) → filter P l = l.
Proof.
  intros HP. induction l as [|x l IH]; [done|].
  by rewrite filter_cons_True, IH.
Qed.

Lemma indexer_transform_base m df :
  base <$> indexer_transform m df
  = filter (fun r => in_vocab (labels m) (inputCol (feat m) r)) (base <$> df).
Proof.
  unfold indexer_transform. induction df as [|r df IH]; [done|].
  rewrite fmap_cons, filter_cons, omap_cons.
  destruct (decide (in_vocab _ _)) as [Hv|Hv];
    rewrite in_vocab_index in Hv.
  - destruct Hv as [i Hi]. rewrite Hi. csimpl. by rewrite IH.
  - destruct (inputCol (feat m) (base r) ≫= label_index (labels m)) eqn:E.
    + destruct Hv. eauto.
    + apply IH.
Qed.

Lemma indexer_transform_indices m df n :
  Forall (fun r => length (indices r) = n) df →
  Forall (fun r => length (indices r) = S n) (indexer_transform m df).
Proof.
  unfold indexer_transform. induction 1 as [|r df Hr _ IH]; [constructor|].
  rewrite omap_cons.
  destruct (inputCol (feat m) (base r) ≫= label_index (labels m)); [|done].
  constructor; [|done]. simpl. rewrite length_app. simpl. lia.
Qed.

Lemma transform_stages_base model df :
  base <$> transform_stages model df = filter (valid_row model) (base <$> df).
Proof.
  unfold transform_stages. revert df.
  induction model as [|m model IH]; intros df; simpl.
  - symmetry. apply filter_all. intros. constructor.
  - rewrite IH, indexer_transform_base, list_filter_filter.
    apply list_filter_iff. intros r. unfold valid_row.
    rewrite Forall_cons. tauto.
Qed.

Lemma transform_stages_indices model df n :
  Forall (fun r => length (indices r) = n) df →
  Forall (fun r => length (indices r) = (n + length model)%nat)
         (transform_stages model df).
Proof.
  unfold transform_stages. revert df n.
  induction model as [|m model IH]; intros df n Hdf; simpl.
  - by rewrite Nat.add_0_r.
  - rewrite <- Nat.add_succ_comm. apply IH. by apply indexer_transform_indices.
Qed.

Lemma base_enter df : base <$> enter df = df.
Proof. unfold enter. rewrite <- list_fmap_compose. apply list_fmap_id. Qed.

Lemma indices_enter df : Forall (fun r => length (indices r) = O) (enter df).
Proof. unfold enter. apply Forall_fmap, Forall_true. done. Qed.

Lemma feat_fit_stages stages df : feat <$> fit_stages stages df = stages.
Proof.
  revert df. induction stages as [|f stages IH]; intros df; simpl; [done|].
  by rewrite IH.
Qed.

Lemma oh_encode_Some labels i :
  (2 ≤ length labels)%nat → oh_encode labels i = Some (one_hot (length labels) i).
Proof. intros H. unfold oh_encode. by rewrite decide_True. Qed.

Lemma oh_encode_inv labels i block :
  oh_encode labels i = Some block →
  (2 ≤ length labels)%nat ∧ block = one_hot (length labels) i.
Proof. unfold oh_encode. destruct (decide _); [|done]. intros [= <-]. done. Qed.

Lemma va_block_is_Some model r name :
  encodable model →
  name ∈ (fun m => ohCol (feat m)) <$> model →
  length (indices r) = length model →
  is_Some (va_block model r name).
Proof.
  intros Henc (m & -> & Hm)%list_elem_of_fmap Hlen. unfold va_block.
  destruct (list_find_elem_of (fun m' => ohCol (feat m') = ohCol (feat m)) model m)
    as [[k m'] Hk]; [done..|].
  rewrite Hk. simpl.
  apply list_find_Some in Hk as (Hk & _ & _).
  assert (Hm' : (2 ≤ length (labels m'))%nat).
  { eapply (proj1 (Forall_forall _ _) Henc). by eapply list_elem_of_lookup_2. }
  apply lookup_lt_Some in Hk. rewrite <- Hlen in Hk.
  apply lookup_lt_is_Some in Hk as [i ->]. simpl.
  rewrite oh_encode_Some by done. eauto.
Qed.

Lemma va_transform_Some inputCols model df :
  encodable model →
  Forall (fun name => name ∈ (fun m => ohCol (feat m)) <$> model) inputCols →
  Forall (fun r => length (indices r) = length model) df →
  ∃ out, va_transform inputCols model df = Some out ∧ prow <$> out = df.
Proof.
  intros Henc Hnames Hdf. unfold va_transform.
  assert (Hrow : ∀ r, r ∈ df → ∃ e, va_row inputCols model r = Some e ∧ prow e = r).
  { intros r Hr. unfold va_row.
    destruct (mapM (va_block model r) inputCols) as [blocks|] eqn:E.
    - simpl. eauto.
    - exfalso. apply eq_None_not_Some in E. apply E, mapM_is_Some.
      eapply Forall_impl; [exact Hnames|]. intros name Hname. simpl.
      apply va_block_is_Some; [done..|]. eapply Forall_forall in Hdf; eauto. }
  clear Hdf. induction df as [|r df IH].
  - exists []. done.
  - destruct (Hrow r) as (e & He & Hpe); [left|].
    destruct IH as (out & Hout & Hp); [intros; apply Hrow; by right|].
    exists (e :: out). split; [|by rewrite fmap_cons, Hpe, Hp].
    apply mapM_Some. constructor; [done|]. by apply mapM_Some.
Qed.


(** Every assembler input of the three pipelines is written by one of
    its encoder stages. *)
Lemma va_resolved p :
  p ∈ [pipeline; pipeline_mj; pipeline_district] →
  Forall (fun name => name ∈ ohCol <$> stages p) (va p).
Proof.
  intros Hp. apply list_elem_of_In in Hp. simpl in Hp.
  destruct Hp as [<- | [<- | [<- | []]]]; simpl;
    repeat (apply List.Forall_cons; [apply list_elem_of_In; simpl; tauto|]);
    apply List.Forall_nil.
Qed.

Lemma transform_encodable p model df :
  is_Some (transform p model df) → encodable model.
Proof. unfold transform. destruct (decide _); [done|]. by intros [? ?]. Qed.

Lemma transform_fit_Some p train test :
  p ∈ [pipeline; pipeline_mj; pipeline_district] →
  encodable (fit p train) →
  ∃ out, transform p (fit p train) test = Some out
         ∧ (fun e => base (prow e)) <$> out = filter (valid_row (fit p train)) test.
Proof.
  intros Hp Henc. unfold transform. rewrite decide_True by done.
  destruct (va_transform_Some (va p) (fit p train)
              (transform_stages (fit p train) (enter test))) as (out & Hout & Hprow).
  - done.
  - pose proof (va_resolved p Hp) as Hv.
    eapply Forall_impl; [exact Hv|]. intros name Hname. simpl in *.
    unfold fit. rewrite (list_fmap_compose feat ohCol), feat_fit_stages. done.
  - apply (transform_stages_indices _ _ O), indices_enter.
  - exists out. split; [done|].
    rewrite (list_fmap_compose prow base), Hprow, transform_stages_base, base_enter.
    done.
Qed.

(** Whether a fitted pipeline runs is settled by its fitted labels: no
    row of the dataframe it is applied to makes it fail or succeed. *)
Lemma transform_fit_is_Some p train test :
  p ∈ [pipeline; pipeline_mj; pipeline_district] →
  is_Some (transform p (fit p train) test) ↔ encodable (fit p train).
Proof.
  intros Hp. split; [apply transform_encodable|].
  intros Henc. destruct (transform_fit_Some p train test Hp Henc) as (out & -> & _).
  eauto.
Qed.

(** Fitted and applied to the same dataframe, as in
    [model = pipeline.fit(data); pred = model.transform(data)], every
    value of a row that reaches an indexer is in its vocabulary, so the
    rows that are dropped are those with a null categorical value. *)
Lemma valid_row_fit_stages stages (cur : list PRow) r :
  r ∈ base <$> cur →
  valid_row (fit_stages stages cur) r
  ↔ Forall (fun f => is_Some (inputCol f r)) stages.
Proof.
  revert cur. induction stages as [|f stages IH]; intros cur Hr.
  - unfold valid_row. simpl. split; constructor.
  - unfold valid_row in *. cbn [fit_stages]. rewrite !Forall_cons. cbn [labels feat].
    assert (Hv : in_vocab (fit_labels ((inputCol f ∘ base) <$> cur)) (inputCol f r)
                 ↔ is_Some (inputCol f r)).
    { unfold in_vocab. split.
      - intros (v & -> & _). eauto.
      - intros [v Hv]. exists v. split; [done|].
        apply elem_of_fit_labels. rewrite <- Hv, list_fmap_compose.
        by apply list_elem_of_fmap_2. }
    rewrite Hv. split.
    + intros [Hs Hrest]. split; [done|].
      eapply IH; [|exact Hrest].
      rewrite indexer_transform_base. apply list_elem_of_filter. cbn [labels feat].
      by rewrite Hv.
    + intros [Hs Hrest]. split; [done|].
      eapply IH; [|exact Hrest].
      rewrite indexer_transform_base. apply list_elem_of_filter. cbn [labels feat].
      by rewrite Hv.
Qed.

Lemma valid_row_fit_same p df r :
  r ∈ df →
  valid_row (fit p df) r ↔ Forall (fun f => is_Some (inputCol f r)) (stages p).
Proof.
  intros Hr. unfold fit. apply valid_row_fit_stages. by rewrite base_enter.
Qed.

(** The sample through the circuit pipeline: the row with the null race
    is skipped; each remaining row has its four indices, in stage order
    (sex, race, charge, county), and its assembled vector. *)
Example transform_sample :
  labels <$> fit pipeline Sample.fit_data
  = [ ["Male"; "Female"]; ["White"; "Black"; "Hispanic"];
      ["18.2-248.1"; "18.2-95"]; ["3"; "760"] ]
  ∧ (fmap (M := list) (fun e => (indices (prow e), features e)))
      <$> transform pipeline (fit pipeline Sample.fit_data) Sample.fit_data
    = Some [ ([0; 0; 0; 0]%nat, [1; 0; 1; 1; 1]);
             ([1; 1; 0; 1]%nat, [0; 1; 1; 0; 0]);
             ([0; 2; 1; 0]%nat, [0; 0; 0; 1; 1]);
             ([0; 0; 0; 0]%nat, [1; 0; 1; 1; 1]);
             ([0; 0; 0; 0]%nat, [1; 0; 1; 1; 1]);
             ([0; 0; 0; 0]%nat, [1; 0; 1; 1; 1]);
             ([0; 1; 1; 1]%nat, [0; 1; 0; 0; 1]) ].
Proof. split; vm_compute; reflexivity. Qed.

(** A row whose race was not seen when fitting is skipped as well. *)
Example transform_unseen :
  length <$> transform pipeline (fit pipeline Sample.fit_data) Sample.fit_test
  = Some 7%nat
  ∧ length Sample.fit_test = 9%nat.
Proof. split; vm_compute; reflexivity. Qed.

(** The names of the assembled positions, as read from the metadata. *)
Example va_names_sample :
  va_names (va pipeline) (fit pipeline Sample.fit_data)
  = Some [ "RaceOH_White"; "RaceOH_Black"; "ChargeCodeOH_18.2-248.1";
           "FipsOH_3"; "GenderOH_Male" ].
Proof. vm_compute. reflexivity. Qed.

(** A column with a single value among the rows that reach its indexer
    (here the county, "3" on every row with a race) stops the pipeline;
    so does a dataframe without rows. *)
Example transform_single_label :
  (fun m => length (labels m)) <$> fit pipeline Sample.data = [2; 3; 2; 1]%nat
  ∧ transform pipeline (fit pipeline Sample.data) Sample.data = None
  ∧ transform pipeline (fit pipeline []) [] = None.
Proof. split_and!; vm_compute; reflexivity. Qed.

End PipelineFacts.

(** C1: a row of [circuit] survives label derivation exactly when its
    charge type is the string 'Misdemeanor' or the string 'Felony'
    (compared as they are, so case matters and a null does not match);
    the retained rows are carried over unchanged, each with the label 1
    for 'Felony' and 0 otherwise; every other row is left out, and the
    step is a total function (no error). *)
Theorem C1_label_derivation (circuit : list Court.CleanRow) :
  (∀ r, (∃ d, d ∈ Court.data circuit ∧ Court.clean d = r)
        ↔ r ∈ circuit
          ∧ (Court.ChargeType (Court.row r) = Some "Misdemeanor"
             ∨ Court.ChargeType (Court.row r) = Some "Felony"))
  ∧ (∀ d, d ∈ Court.data circuit →
          Court.Felony d
          = if decide (Court.ChargeType (Court.row (Court.clean d)) = Some "Felony")
            then 1 else 0).
Proof.
  split.
  - intros r. rewrite <- filter_ChargeType_spec, <- clean_data.
    rewrite list_elem_of_fmap. split.
    + intros (d & Hd & <-). eauto.
    + intros (d & -> & Hd). eauto.
  - apply Felony_data.
Qed.

(** C7: for a categorical column the string indexer gives the distinct
    non-null values of the fitting data the dense indices 0, 1, 2, ...
    (every observed value has one index, different values have different
    indices, and the indices are exactly those below the number of
    values), in descending order of frequency: a value that is strictly
    more frequent than another has the smaller index.  The one-hot block
    names its position [i] after the value of index [i], which is how the
    coefficient-to-name mapping read from the metadata follows this
    order. *)
Theorem C7_indexer_descending_frequency (col : list (option string)) :
  (∀ v, Some v ∈ col ↔ ∃ i, Encoder.label_index (Encoder.fit_labels col) v = Some i)
  ∧ (∀ v w i, Encoder.label_index (Encoder.fit_labels col) v = Some i →
              Encoder.label_index (Encoder.fit_labels col) w = Some i → v = w)
  ∧ (∀ i, (i < length (Encoder.fit_labels col))%nat
          ↔ ∃ v, Encoder.label_index (Encoder.fit_labels col) v = Some i)
  ∧ (∀ v w i j, Encoder.label_index (Encoder.fit_labels col) v = Some i →
                Encoder.label_index (Encoder.fit_labels col) w = Some j →
                (Encoder.freq col w < Encoder.freq col v)%nat → (i < j)%nat)
  ∧ (∀ name v i, Encoder.label_index (Encoder.fit_labels col) v = Some i →
                 (S i < length (Encoder.fit_labels col))%nat →
                 Encoder.oh_names name (Encoder.fit_labels col) !! i
                 = Some (name +:+ "_" +:+ v)).
Proof.
  pose proof (NoDup_fit_labels col) as Hnd.
  split_and!.
  - intros v. rewrite <- elem_of_fit_labels, list_elem_of_lookup.
    by setoid_rewrite (label_index_Some _ _ _ Hnd).
  - intros v w i Hv%(label_index_Some _ _ _ Hnd) Hw%(label_index_Some _ _ _ Hnd).
    congruence.
  - intros i. setoid_rewrite (label_index_Some _ _ _ Hnd).
    rewrite <- lookup_lt_is_Some. done.
  - intros v w i j Hv%(label_index_Some _ _ _ Hnd) Hw%(label_index_Some _ _ _ Hnd).
    by apply fit_labels_order.
  - intros name v i Hv%(label_index_Some _ _ _ Hnd) Hi.
    rewrite oh_names_lookup by done. by rewrite Hv.
Qed.



(** ** Cross-tabulation *)

Section CrosstabFacts.
Import Court Crosstab.

Lemma F_count_null col : Forall (fun c => c = None) col → F_count col = 0.
Proof.
  unfold F_count. induction 1 as [|c col -> _ IH]; [done|]. exact IH.
Qed.

Lemma F_count_nonnull col : Forall is_Some col → F_count col = Z.of_nat (length col).
Proof.
  unfold F_count. intros H. f_equal.
  induction H as [|c col [v ->] _ IH]; [done|].
  change (omap id (Some v :: col)) with (v :: omap id col). simpl. by rewrite IH.
Qed.

Lemma F_sum_nonempty col : col ≠ [] → F_sum col = Some (sum_Z col).
Proof. by destruct col. Qed.

(** The rows of a cross-tab, group by group. *)
Lemma elem_of_fel df g :
  g ∈ fel df ↔
  ∃ k, k ∈ (fun r => RaceClean (clean r)) <$> df
       ∧ g = {| RaceClean_key := k;
                count := F_count ((fun r => RaceClean (clean r))
                                    <$> group_rows (fun r => RaceClean (clean r)) k df);
                n_felonies := F_sum (Felony <$> group_rows (fun r => RaceClean (clean r)) k df) |}.
Proof.
  unfold fel, groupBy. rewrite <- list_fmap_compose, list_elem_of_fmap.
  setoid_rewrite elem_of_remove_dups. split.
  - intros (k & -> & Hk). eauto.
  - intros (k & Hk & ->). eauto.
Qed.

Lemma group_rows_nonempty key k df : k ∈ key <$> df → group_rows key k df ≠ [].
Proof.
  intros (r & -> & Hr)%list_elem_of_fmap Hnil.
  assert (Hin : r ∈ group_rows key (key r) df) by (by apply list_elem_of_filter).
  rewrite Hnil in Hin. by apply elem_of_nil in Hin.
Qed.

Lemma group_rows_key key k df : Forall (fun c => c = k) (key <$> group_rows key k df).
Proof.
  apply Forall_fmap, Forall_forall. intros r Hr.
  by apply list_elem_of_filter in Hr as [? _].
Qed.

Lemma fel_n_felonies df g :
  g ∈ fel df →
  n_felonies g
  = Some (sum_Z (Felony <$> group_rows (fun r => RaceClean (clean r)) (RaceClean_key g) df)).
Proof.
  intros (k & Hk & ->)%elem_of_fel. simpl. apply F_sum_nonempty.
  intros Hnil%fmap_nil_inv. by eapply group_rows_nonempty.
Qed.

Lemma fel_count_null df g :
  g ∈ fel df → RaceClean_key g = None → count g = 0.
Proof.
  intros (k & Hk & ->)%elem_of_fel. simpl. intros ->.
  apply F_count_null, group_rows_key.
Qed.

Lemma fel_count_nonnull df g v :
  g ∈ fel df → RaceClean_key g = Some v →
  count g = Z.of_nat (length (group_rows (fun r => RaceClean (clean r)) (Some v) df))
  ∧ 0 < count g.
Proof.
  intros (k & Hk & ->)%elem_of_fel. simpl. intros ->.
  rewrite F_count_nonnull.
  - rewrite length_fmap. split; [done|].
    pose proof (group_rows_nonempty _ _ _ Hk) as Hne.
    destruct (group_rows _ _ df); [done | simpl; lia].
  - eapply Forall_impl; [apply group_rows_key|]. intros c ->. eauto.
Qed.

Lemma divide_spec n c :
  divide (Some n) c = if decide (c = 0) then None else Some (Qmake n (Z.to_pos c)).
Proof. reflexivity. Qed.

Lemma withPercent_spec df :
  Forall (fun g =>
            fel_row g ∈ fel df
            ∧ percent g = divide (n_felonies (fel_row g)) (count (fel_row g)))
         (withPercent (fel df)).
Proof.
  unfold withPercent. apply Forall_fmap, Forall_forall. intros g Hg. done.
Qed.

End CrosstabFacts.

Example crosstab_sample :
  (fun g => (Crosstab.RaceClean_key (Crosstab.fel_row g),
             Crosstab.count (Crosstab.fel_row g),
             Crosstab.n_felonies (Crosstab.fel_row g),
             Crosstab.percent g)) <$> Crosstab.crosstab Sample.data
  = [ (Some "White", 1, Some 1, Some (Qmake 1 1));
      (Some "Black", 1, Some 0, Some (Qmake 0 1));
      (None, 0, Some 1, None);
      (Some "Hispanic", 1, Some 1, Some (Qmake 1 1)) ].
Proof. vm_compute. reflexivity. Qed.

(** The second cross-tab cell is the first one over the filtered rows. *)
Lemma crosstab_charge_eq data :
  Crosstab.crosstab_charge data
  = Crosstab.crosstab
      (Court.df_filter
         (fun r => Court.col_eq (Court.CodeSection (Court.row (Court.clean r))) "18.2-248.1")
         data).
Proof. reflexivity. Qed.

(** The group of a key as the cross-tab reports it: the key, the number
    of the group's rows when the key is not null and 0 when it is, the
    sum of the label over the group's rows, and their double quotient,
    null when the count is 0. *)
Lemma crosstab_rows {Double : Type} (fdiv : Z → Z → Double) (df : list Court.DataRow) :
  Rate.crosstab fdiv df
  = (fun k =>
       let rows := Crosstab.group_rows (fun r => Court.RaceClean (Court.clean r)) k df in
       let n := Crosstab.sum_Z (Court.Felony <$> rows) in
       let c := match k with Some _ => Z.of_nat (length rows) | None => 0 end in
       {| Rate.fel_row := {| Crosstab.RaceClean_key := k; Crosstab.count := c;
                             Crosstab.n_felonies := Some n |};
          Rate.percent := if decide (c = 0) then None else Some (fdiv n c) |})
      <$> remove_dups ((fun r => Court.RaceClean (Court.clean r)) <$> df).
Proof.
  unfold Rate.crosstab, Rate.withPercent, Crosstab.fel, Crosstab.groupBy.
  rewrite <- !list_fmap_compose. apply list_fmap_ext. intros i k Hk. simpl.
  apply list_elem_of_lookup_2 in Hk. rewrite elem_of_remove_dups in Hk.
  pose proof (group_rows_nonempty _ _ _ Hk) as Hne.
  rewrite F_sum_nonempty by (intros Hnil%fmap_nil_inv; done).
  assert (Hc : Crosstab.F_count
                 ((fun r => Court.RaceClean (Court.clean r))
                    <$> Crosstab.group_rows (fun r => Court.RaceClean (Court.clean r)) k df)
               = match k with
                 | Some _ => Z.of_nat (length (Crosstab.group_rows
                                                 (fun r => Court.RaceClean (Court.clean r)) k df))
                 | None => 0
                 end).
  { destruct k as [v|].
    - rewrite F_count_nonnull, length_fmap; [done|].
      eapply Forall_impl; [apply group_rows_key|]. intros c ->. eauto.
    - apply F_count_null, group_rows_key. }
  rewrite Hc. reflexivity.
Qed.

(** With the exact quotient for the division, this is the cross-tab of
    [Crosstab]. *)
Lemma crosstab_exact (df : list Court.DataRow) :
  Crosstab.crosstab df
  = (fun g => {| Crosstab.fel_row := Rate.fel_row g; Crosstab.percent := Rate.percent g |})
      <$> Rate.crosstab (fun n c => Qmake n (Z.to_pos c)) df.
Proof.
  unfold Crosstab.crosstab, Crosstab.withPercent, Rate.crosstab, Rate.withPercent.
  rewrite <- list_fmap_compose. reflexivity.
Qed.

(** C6: the cross-tabulation of a dataframe by normalised race has one
    row per distinct key of the dataframe, null included (no key twice,
    and the keys are those of the dataframe's rows), and adding the rate
    keeps the rows of the aggregation; each row carries the group's felony count (the sum of the label over
    the group's rows) and a rate that is that count divided by the
    group's [count], as doubles, when the [count] is not zero, and null
    when it is zero, which is the case of the group of the null key; the
    cross-tabulation is a total function, so no group makes it fail. *)
Theorem C6_rate_null_on_zero_count {Double : Type} (fdiv : Z → Z → Double)
    (df : list Court.DataRow) :
  NoDup ((fun g => Crosstab.RaceClean_key (Rate.fel_row g)) <$> Rate.crosstab fdiv df)
  ∧ (∀ k, k ∈ (fun g => Crosstab.RaceClean_key (Rate.fel_row g)) <$> Rate.crosstab fdiv df
          ↔ k ∈ (fun r => Court.RaceClean (Court.clean r)) <$> df)
  ∧ Rate.fel_row <$> Rate.crosstab fdiv df = Crosstab.fel df
  ∧ Forall (fun g =>
              ∃ n,
                Crosstab.n_felonies (Rate.fel_row g) = Some n
                ∧ n = Crosstab.sum_Z
                        (Court.Felony <$>
                           Crosstab.group_rows (fun r => Court.RaceClean (Court.clean r))
                             (Crosstab.RaceClean_key (Rate.fel_row g)) df)
                ∧ Rate.percent g
                  = (if decide (Crosstab.count (Rate.fel_row g) = 0) then None
                     else Some (fdiv n (Crosstab.count (Rate.fel_row g))))
                ∧ (Crosstab.RaceClean_key (Rate.fel_row g) = None →
                   Crosstab.count (Rate.fel_row g) = 0))
           (Rate.crosstab fdiv df).
Proof.
  assert (Hkeys : (fun g => Crosstab.RaceClean_key (Rate.fel_row g))
                    <$> Rate.crosstab fdiv df
                  = remove_dups ((fun r => Court.RaceClean (Court.clean r)) <$> df)).
  { rewrite crosstab_rows, <- list_fmap_compose. apply list_fmap_id. }
  split_and!.
  - rewrite Hkeys. apply NoDup_remove_dups.
  - intros k. rewrite Hkeys. apply elem_of_remove_dups.
  - unfold Rate.crosstab, Rate.withPercent. rewrite <- list_fmap_compose.
    apply list_fmap_id.
  - rewrite crosstab_rows. apply Forall_fmap, Forall_forall. intros k Hk. simpl.
    eexists. split; [reflexivity|]. split; [reflexivity|]. split; [reflexivity|].
    by intros ->.
Qed.

(** C9: in the cross-tabulation the group of the null [RaceClean] key has
    [count] 0 however many rows it holds (it holds at least one), its
    [n_felonies] is the sum of the label over those rows, and its rate is
    null; the sum can be positive, as in the sample, where the null group
    holds one felony. *)
Theorem C9_null_group_count_zero :
  (∀ df : list Court.DataRow,
     Forall (fun g =>
               Crosstab.RaceClean_key (Crosstab.fel_row g) = None →
               Crosstab.count (Crosstab.fel_row g) = 0
               ∧ Crosstab.group_rows (fun r => Court.RaceClean (Court.clean r)) None df ≠ []
               ∧ Crosstab.n_felonies (Crosstab.fel_row g)
                 = Some (Crosstab.sum_Z
                           (Court.Felony <$>
                              Crosstab.group_rows (fun r => Court.RaceClean (Court.clean r))
                                None df))
               ∧ Crosstab.percent g = None)
            (Crosstab.crosstab df))
  ∧ (∃ g, g ∈ Crosstab.crosstab Sample.data
          ∧ Crosstab.RaceClean_key (Crosstab.fel_row g) = None
          ∧ Crosstab.count (Crosstab.fel_row g) = 0
          ∧ Crosstab.n_felonies (Crosstab.fel_row g) = Some 1
          ∧ Crosstab.percent g = None).
Proof.
  split.
  - intros df. unfold Crosstab.crosstab.
    eapply Forall_impl; [apply withPercent_spec|].
    intros g [Hg Hp] Hkey. simpl in *.
    pose proof (fel_count_null df _ Hg Hkey) as Hc.
    pose proof (fel_n_felonies df _ Hg) as Hn. rewrite Hkey in Hn.
    split_and!; [done| |done|].
    + apply elem_of_fel in Hg as (k & Hk & Heq).
      rewrite Heq in Hkey. simpl in Hkey. subst k.
      by apply group_rows_nonempty.
    + rewrite Hp, Hn, Hc. reflexivity.
  - exists {| Crosstab.fel_row :=
               {| Crosstab.RaceClean_key := None; Crosstab.count := 0;
                  Crosstab.n_felonies := Some 1 |};
             Crosstab.percent := None |}.
    split; [|done].
    assert (H : Crosstab.crosstab Sample.data !! 2%nat
                = Some {| Crosstab.fel_row :=
                           {| Crosstab.RaceClean_key := None; Crosstab.count := 0;
                              Crosstab.n_felonies := Some 1 |};
                         Crosstab.percent := None |})
      by (vm_compute; reflexivity).
    by eapply list_elem_of_lookup_2.
Qed.

(** ** Which data the printed metrics come from *)

Section TrainerFacts.
Import Court Encoder Trainer.
Context {LRModel Metrics : Type}.
Variable lr_fit : list (list Z * Z) → LRModel.
Variable evaluate : LRModel → list (list Z * Z) → Metrics.

(** The training summary of a fitted pipeline is the model's metrics
    over the dataframe that was fitted. *)
Lemma summary_Pipeline_fit p df :
  (fun model => summary (logm model)) <$> Pipeline_fit lr_fit evaluate p df
  = Pipeline_fit lr_fit evaluate p df ≫= fun model => metrics_on evaluate p model df.
Proof.
  unfold Pipeline_fit, metrics_on.
  destruct (Encoder.transform p (fit p df) df) as [enc|] eqn:E; simpl; [|done].
  rewrite E. done.
Qed.

Lemma Pipeline_fit_is_Some p df :
  p ∈ [pipeline; pipeline_mj; pipeline_district] →
  is_Some (Pipeline_fit lr_fit evaluate p df) ↔ encodable (fit p df).
Proof.
  intros Hp. unfold Pipeline_fit. split.
  - intros [model Hm].
    destruct (Encoder.transform p (fit p df) df) as [enc|] eqn:E; [|done].
    apply (transform_encodable p _ df). rewrite E. eauto.
  - intros Henc. destruct (transform_fit_Some p df df Hp Henc) as (out & -> & _).
    simpl. eauto.
Qed.

(** The printed summary, read off a fitted pipeline. *)
Lemma printed_summary p df :
  Pipeline_fit lr_fit evaluate p df ≫= (fun model => Some (summary (logm model)))
  = Pipeline_fit lr_fit evaluate p df ≫= fun model => metrics_on evaluate p model df.
Proof.
  rewrite <- summary_Pipeline_fit. by destruct (Pipeline_fit lr_fit evaluate p df).
Qed.

Lemma printed_is_Some p df :
  p ∈ [pipeline; pipeline_mj; pipeline_district] →
  is_Some (Pipeline_fit lr_fit evaluate p df
             ≫= fun model => Some (summary (logm model)))
  ↔ encodable (fit p df).
Proof.
  intros Hp. rewrite <- (Pipeline_fit_is_Some p df Hp).
  destruct (Pipeline_fit lr_fit evaluate p df); simpl.
  - split; eauto.
  - split; by intros [? ?].
Qed.

Lemma indexers_Pipeline_fit p df model :
  Pipeline_fit lr_fit evaluate p df = Some model → indexers model = fit p df.
Proof.
  unfold Pipeline_fit. destruct (Encoder.transform _ _ _); simpl; [|done].
  by intros [= <-].
Qed.

End TrainerFacts.

Lemma circuit_mj_metrics_summary
    {LRModel Metrics : Type}
    (lr_fit : list (list Z * Z) → LRModel)
    (evaluate : LRModel → list (list Z * Z) → Metrics)
    (randomSplit : list Court.DataRow → list Court.DataRow * list Court.DataRow)
    (data : list Court.DataRow) :
  Trainer.circuit_mj_metrics lr_fit evaluate randomSplit data
  = Trainer.Pipeline_fit lr_fit evaluate Encoder.pipeline_mj
      (randomSplit (Trainer.data_mj data)).1
      ≫= fun model_mj => Some (Trainer.summary (Trainer.logm model_mj)).
Proof.
  unfold Trainer.circuit_mj_metrics.
  destruct (randomSplit (Trainer.data_mj data)) as [train test]. simpl.
  destruct (Trainer.Pipeline_fit lr_fit evaluate Encoder.pipeline_mj train)
    as [model_mj|] eqn:Hm; simpl; [|done].
  rewrite (indexers_Pipeline_fit _ _ _ _ _ Hm).
  assert (Henc : Encoder.encodable (Encoder.fit Encoder.pipeline_mj train)).
  { apply (Pipeline_fit_is_Some lr_fit evaluate); [right; left|]. rewrite Hm. eauto. }
  destruct (transform_fit_Some Encoder.pipeline_mj train test) as (out & -> & _);
    [right; left|done|].
  reflexivity.
Qed.

Example circuit_full_metrics_sample :
  Trainer.circuit_full_metrics Trainer.always_felony Trainer.hits Trainer.split_last
    Sample.fit_data = Some (4, 7)%nat
  ∧ Trainer.circuit_full_metrics Trainer.always_felony Trainer.hits Trainer.split_last
      Sample.data = None.
Proof. split; vm_compute; reflexivity. Qed.

(** C5, as stated: with a split created beforehand the printed metrics
    of the circuit notebook's model would be those over the held-out part.
    On the sample, with the learner that always predicts felony and the
    split that holds out the last row, both pipelines are fitted without
    error, and the printed metrics are 4 hits over 7 rows (all encoded
    rows of the fitted dataframe), the held-out ones 1 hit over 1 row; for
    the marijuana model they are 2 hits over the 4 training rows, the
    held-out ones no hit over 1 row. *)
Lemma C5_printed_metrics_are_not_heldout :
  Trainer.circuit_full_metrics Trainer.always_felony Trainer.hits Trainer.split_last
    Sample.fit_data = Some (4, 7)%nat
  ∧ Trainer.heldout_metrics Trainer.always_felony Trainer.hits Trainer.split_last
      Sample.fit_data = Some (1, 1)%nat
  ∧ Trainer.circuit_mj_metrics Trainer.always_felony Trainer.hits Trainer.split_last
      Sample.fit_data = Some (2, 4)%nat
  ∧ Trainer.heldout_metrics_mj Trainer.always_felony Trainer.hits Trainer.split_last
      Sample.fit_data = Some (0, 1)%nat.
Proof. split_and!; vm_compute; reflexivity. Qed.

(** C5, amended: whatever the optimiser, the metric and the split, the
    metrics the notebooks print are the fitted model's training summary,
    that is its metrics over the dataframe that was passed to [fit]: the
    whole of [data] for the circuit notebook's full model (the split made
    before it is not used) and for the district model, and the training
    part of the split for the marijuana model (its held-out part is only
    transformed).  Each of them is printed exactly when the pipeline can
    be fitted on that dataframe, that is when each of its indexers finds
    at least two labels there. *)
Theorem C5_metrics_over_fitted_data
    {LRModel Metrics : Type}
    (lr_fit : list (list Z * Z) → LRModel)
    (evaluate : LRModel → list (list Z * Z) → Metrics)
    (randomSplit : list Court.DataRow → list Court.DataRow * list Court.DataRow)
    (data : list Court.DataRow) :
  Trainer.circuit_full_metrics lr_fit evaluate randomSplit data
  = Trainer.Pipeline_fit lr_fit evaluate Encoder.pipeline data
      ≫= (fun model => Trainer.metrics_on evaluate Encoder.pipeline model data)
  ∧ (is_Some (Trainer.circuit_full_metrics lr_fit evaluate randomSplit data)
     ↔ Encoder.encodable (Encoder.fit Encoder.pipeline data))
  ∧ Trainer.circuit_mj_metrics lr_fit evaluate randomSplit data
    = Trainer.Pipeline_fit lr_fit evaluate Encoder.pipeline_mj
        (randomSplit (Trainer.data_mj data)).1
        ≫= (fun model_mj =>
              Trainer.metrics_on evaluate Encoder.pipeline_mj model_mj
                (randomSplit (Trainer.data_mj data)).1)
  ∧ (is_Some (Trainer.circuit_mj_metrics lr_fit evaluate randomSplit data)
     ↔ Encoder.encodable
         (Encoder.fit Encoder.pipeline_mj (randomSplit (Trainer.data_mj data)).1))
  ∧ Trainer.district_metrics lr_fit evaluate data
    = Trainer.Pipeline_fit lr_fit evaluate Encoder.pipeline_district data
        ≫= (fun model => Trainer.metrics_on evaluate Encoder.pipeline_district model data)
  ∧ (is_Some (Trainer.district_metrics lr_fit evaluate data)
     ↔ Encoder.encodable (Encoder.fit Encoder.pipeline_district data)).
Proof.
  assert (Hfull : Trainer.circuit_full_metrics lr_fit evaluate randomSplit data
                  = Trainer.Pipeline_fit lr_fit evaluate Encoder.pipeline data
                      ≫= fun model => Some (Trainer.summary (Trainer.logm model))).
  { unfold Trainer.circuit_full_metrics. by destruct (randomSplit data). }
  split_and!.
  - rewrite Hfull. apply printed_summary.
  - rewrite Hfull. apply printed_is_Some. left.
  - rewrite circuit_mj_metrics_summary. apply printed_summary.
  - rewrite circuit_mj_metrics_summary. apply printed_is_Some. right; left.
  - unfold Trainer.district_metrics. apply printed_summary.
  - unfold Trainer.district_metrics. apply printed_is_Some. right; right; left.
Qed.

(** ** Census cleaning *)

Section CensusFacts.
Import Census.

Lemma zip_with_fmap_both {A B C D} (f : B → C → D) (g : A → B) (h : A → C) l :
  zip_with f (g <$> l) (h <$> l) = (fun r => f (g r) (h r)) <$> l.
Proof.
  induction l as [|x l IH]; [done|].
  rewrite !fmap_cons. cbn [zip_with]. by rewrite IH.
Qed.

Lemma replicate_length_fmap {A B} (d : B) (l : list A) :
  replicate (length l) d = (fun _ => d) <$> l.
Proof.
  induction l as [|x l IH]; [done|].
  rewrite fmap_cons. cbn [length replicate]. by rewrite IH.
Qed.

Lemma boolean_index_fmap {A} (f : A → bool) (df : list A) :
  boolean_index df (f <$> df) = filter (fun r => f r = true) df.
Proof.
  unfold boolean_index. induction df as [|r df IH]; [done|].
  rewrite fmap_cons. cbn [zip zip_with]. rewrite !filter_cons. cbn [snd].
  destruct (decide (f r = true)); [rewrite fmap_cons; cbn [fst]|]; by rewrite IH.
Qed.

Lemma filter_rows_filter census :
  filter_rows census = filter (fun r => AGEGRP r = 0 ∧ 3 ≤ YEAR r) census.
Proof.
  unfold filter_rows. rewrite zip_with_fmap_both, boolean_index_fmap.
  apply list_filter_iff. intros r.
  rewrite andb_true_iff, !bool_decide_eq_true. done.
Qed.

(** [np.select] over conditions that are tests of the rows computes, at
    each row, the first choice whose test holds. *)
Lemma np_select_rows {A} (p : Z → A → bool) (cs xs : list Z) (d : Z) (df : list A) :
  np_select ((fun c => p c <$> df) <$> cs) xs d (length df)
  = (fun r => foldr (fun cx acc => if p cx.1 r then cx.2 else acc) d (zip cs xs))
      <$> df.
Proof.
  unfold np_select. revert xs. induction cs as [|c cs IH]; intros xs.
  - simpl. apply replicate_length_fmap.
  - destruct xs as [|x xs]; [simpl; apply replicate_length_fmap|].
    simpl. rewrite IH. apply zip_with_fmap_both.
Qed.

Lemma recode_YEAR_rows df :
  recode_YEAR df = (fun r => set_YEAR r (first_choice (YEAR r))) <$> df.
Proof.
  unfold recode_YEAR, conditions.
  rewrite (np_select_rows (fun c r => bool_decide (YEAR r = c))).
  rewrite zip_with_fmap_r, zip_with_diag. done.
Qed.

Lemma first_choice_in_codes y : 3 ≤ y ≤ 12 → first_choice y = y + 2007.
Proof.
  intros Hy. unfold first_choice. simpl.
  repeat case_bool_decide; lia.
Qed.

Lemma first_choice_default y : y < 3 ∨ 12 < y → first_choice y = 0.
Proof.
  intros Hy. unfold first_choice. simpl.
  repeat case_bool_decide; lia.
Qed.

Lemma census_clean_rows census :
  census_clean census
  = (fun r => drop_columns (set_YEAR r (first_choice (YEAR r)))) <$> filter_rows census.
Proof.
  unfold census_clean. rewrite recode_YEAR_rows, <- list_fmap_compose. done.
Qed.

Lemma matches_at_conditions df i r :
  df !! i = Some r →
  matches_at (conditions df) i = length (filter (fun c => YEAR r = c) codes).
Proof.
  intros Hi. unfold matches_at, conditions.
  induction codes as [|c cs IH]; [done|].
  rewrite fmap_cons, !filter_cons, list_lookup_fmap, Hi. simpl.
  destruct (decide (YEAR r = c)) as [Hc|Hc].
  - rewrite decide_True by (by rewrite bool_decide_eq_true_2). simpl. by rewrite IH.
  - rewrite decide_False; [done|]. intros [= H]. by apply bool_decide_eq_true in H.
Qed.

Lemma one_code y : 3 ≤ y ≤ 12 → length (filter (fun c => y = c) codes) = 1%nat.
Proof.
  intros Hy.
  assert (H : y = 3 ∨ y = 4 ∨ y = 5 ∨ y = 6 ∨ y = 7 ∨ y = 8 ∨ y = 9
              ∨ y = 10 ∨ y = 11 ∨ y = 12) by lia.
  destruct H as [->|[->|[->|[->|[->|[->|[->|[->|[->| ->]]]]]]]]]; reflexivity.
Qed.

Lemma no_code y : y < 3 ∨ 12 < y → length (filter (fun c => y = c) codes) = 0%nat.
Proof.
  intros Hy. unfold codes.
  repeat (rewrite filter_cons_False by lia). reflexivity.
Qed.

End CensusFacts.

Example census_clean_sample :
  (fun r => (Census.YEAR' r, Census.POP' r)) <$> Census.census_clean Sample.census
  = [ (2010, [33148; 16152; 16996]); (2019, [32316; 15709; 16607]) ].
Proof. vm_compute. reflexivity. Qed.

(** C8, as stated: in every output record [YEAR] is the original code
    plus 2007.  The record with code 13 passes the filter ([AGEGRP] is 0
    and 13 >= 3) and its output [YEAR] is 0, not 2020. *)
Lemma C8_code13_recoded_to_zero :
  Census.YEAR <$> Census.filter_rows Sample.census_code13 = [13]
  ∧ Census.YEAR' <$> Census.census_clean Sample.census_code13 = [0]
  ∧ 13 + 2007 = 2020.
Proof. split_and!; vm_compute; reflexivity. Qed.

(** C8, amended: a record of the raw table is retained exactly when its
    [AGEGRP] is 0 and its [YEAR] code is at least 3; the output has one
    record per retained record, in order, without the [SUMLEV] and
    [AGEGRP] columns and with the other columns unchanged, except [YEAR],
    which is the code plus 2007 for the codes up to 12 (3..12 become
    2010..2019) and 0 for a code above 12. *)
Theorem C8_census_clean (census : list Census.Row) :
  (∀ r, r ∈ Census.filter_rows census
        ↔ r ∈ census ∧ Census.AGEGRP r = 0 ∧ 3 ≤ Census.YEAR r)
  ∧ Forall2 (fun r r' =>
               (Census.YEAR r ≤ 12 → Census.YEAR' r' = Census.YEAR r + 2007)
               ∧ (12 < Census.YEAR r → Census.YEAR' r' = 0)
               ∧ Census.STATE' r' = Census.STATE r
               ∧ Census.COUNTY' r' = Census.COUNTY r
               ∧ Census.STNAME' r' = Census.STNAME r
               ∧ Census.CTYNAME' r' = Census.CTYNAME r
               ∧ Census.POP' r' = Census.POP r)
            (Census.filter_rows census) (Census.census_clean census).
Proof.
  split.
  - intros r. rewrite filter_rows_filter, list_elem_of_filter. tauto.
  - rewrite census_clean_rows. apply Forall2_fmap_r, Forall_Forall2_diag.
    apply Forall_forall. intros r Hr.
    rewrite filter_rows_filter in Hr. apply list_elem_of_filter in Hr as [[_ Hy] _].
    simpl. split_and!; try done.
    + intros Hle. apply first_choice_in_codes. lia.
    + intros Hgt. apply first_choice_default. lia.
Qed.

(** C10, as stated: under the filter every retained code lies in 3..12
    and the default is never taken.  The record with code 13 is retained,
    none of the ten conditions holds for it, and its [YEAR] becomes the
    default 0. *)
Lemma C10_default_reached_above_12 :
  Census.filter_rows Sample.census_code13 = Sample.census_code13
  ∧ Census.YEAR <$> Sample.census_code13 = [13]
  ∧ Census.matches_at (Census.conditions (Census.filter_rows Sample.census_code13)) 0 = 0%nat
  ∧ Census.YEAR' <$> Census.census_clean Sample.census_code13 = [0].
Proof. split_and!; vm_compute; reflexivity. Qed.

(** C10, amended: the filter bounds the retained codes from below only
    (every retained code is at least 3).  For a retained record whose code
    is at most 12, the last code of the data dictionary, exactly one of
    the ten conditions holds, its output [YEAR] lies in 2010..2019 and is
    not the default 0; for a retained record whose code is above 12 no
    condition holds and its output [YEAR] is the default 0. *)
Theorem C10_default_not_taken_up_to_12 (census : list Census.Row) (i : nat) (r : Census.Row) :
  Census.filter_rows census !! i = Some r →
  3 ≤ Census.YEAR r
  ∧ (Census.YEAR r ≤ 12 →
     Census.matches_at (Census.conditions (Census.filter_rows census)) i = 1%nat
     ∧ ∃ r', Census.census_clean census !! i = Some r'
             ∧ 2010 ≤ Census.YEAR' r' ≤ 2019)
  ∧ (12 < Census.YEAR r →
     Census.matches_at (Census.conditions (Census.filter_rows census)) i = 0%nat
     ∧ ∃ r', Census.census_clean census !! i = Some r' ∧ Census.YEAR' r' = 0).
Proof.
  intros Hi.
  assert (Hge : 3 ≤ Census.YEAR r).
  { apply list_elem_of_lookup_2 in Hi. rewrite filter_rows_filter in Hi.
    by apply list_elem_of_filter in Hi as [[_ ?] _]. }
  assert (Hout : Census.census_clean census !! i
                 = Some (Census.drop_columns
                           (Census.set_YEAR r (Census.first_choice (Census.YEAR r)))))
    by (by rewrite census_clean_rows, list_lookup_fmap, Hi).
  split_and!; [done| |].
  - intros Hle. split.
    + rewrite (matches_at_conditions _ _ _ Hi). apply one_code. lia.
    + eexists. split; [exact Hout|]. simpl.
      rewrite first_choice_in_codes by lia. lia.
  - intros Hgt. split.
    + rewrite (matches_at_conditions _ _ _ Hi). apply no_code. lia.
    + eexists. split; [exact Hout|]. simpl.
      apply first_choice_default. lia.
Qed.

Lemma C10_default_not_taken_up_to_12_witness :
  3 ≤ 12
  ∧ (12 ≤ 12 →
     Census.matches_at (Census.conditions (Census.filter_rows Sample.census)) 1 = 1%nat
     ∧ ∃ r', Census.census_clean Sample.census !! 1%nat = Some r'
             ∧ 2010 ≤ Census.YEAR' r' ≤ 2019)
  ∧ (12 < 12 →
     Census.matches_at (Census.conditions (Census.filter_rows Sample.census)) 1 = 0%nat
     ∧ ∃ r', Census.census_clean Sample.census !! 1%nat = Some r' ∧ Census.YEAR' r' = 0).
Proof.
  apply (C10_default_not_taken_up_to_12 Sample.census 1
           {| Census.SUMLEV := 50; Census.STATE := 51; Census.COUNTY := 1;
              Census.STNAME := "Virginia"; Census.CTYNAME := "Accomack County";
              Census.YEAR := 12; Census.AGEGRP := 0;
              Census.POP := [32316; 15709; 16607] |}).
  vm_compute. reflexivity.
Defined.

(** * Further properties of the notebooks' cells *)

(** ** Normaliser: inputs without a match, and what never remains *)

Section NormaliserMore.
Import RaceNorm Text.

Lemma replace_from_absent pat rep s :
  occurs pat s = false → replace_from pat rep O s = s.
Proof.
  induction s as [|c s IH]; [done|].
  cbn [occurs replace_from]. intros [Hp Hs]%orb_false_iff.
  rewrite Hp. by rewrite IH.
Qed.

Lemma chain_absent (rs : list (string * string)) s :
  Forall (fun pr => occurs pr.1 s = false) rs →
  foldl (fun acc '(pat, rep) => regexp_replace acc pat rep) (Some s) rs = Some s.
Proof.
  induction 1 as [|[pat rep] rs Hp _ IH]; [done|].
  cbn [foldl]. unfold regexp_replace at 2. cbn [fmap option_fmap option_map].
  simpl in Hp. by rewrite (replace_from_absent _ _ _ Hp).
Qed.

Lemma append_cons c s t : String c s +:+ t = String c (s +:+ t).
Proof. reflexivity. Qed.

Lemma append_nil t : "" +:+ t = t.
Proof. reflexivity. Qed.

(** No occurrence of ["ther"], or of a suffix of it, is created by the
    last rule: the replacement starts with another character. *)
Lemma prefix_after_Other w s :
  Forall (fun c => c ≠ "U"%char) (String.list_ascii_of_string w) →
  String.prefix w (replace_from "Other" "Unknown" O s) = true →
  String.prefix w s = true.
Proof.
  revert s. induction w as [|a w IH]; intros s Hw.
  - by destruct s.
  - apply List.Forall_cons_iff in Hw as [Ha Hw].
    destruct s as [|d s]; [done|].
    cbn [replace_from].
    destruct (String.prefix "Other" (String d s)) eqn:E.
    + rewrite append_cons. cbn [String.prefix].
      destruct (Ascii.ascii_dec a "U"); [done | discriminate].
    + cbn [String.prefix]. destruct (Ascii.ascii_dec a d); [|done].
      by apply IH.
Qed.

Lemma no_Other_after_last_rule s k :
  occurs "Other" (replace_from "Other" "Unknown" k s) = false.
Proof.
  revert k. induction s as [|c s IH]; intros k; [by destruct k|].
  destruct k as [|k]; cbn [replace_from]; [|apply IH].
  destruct (String.prefix "Other" (String c s)) eqn:E.
  - rewrite !append_cons, append_nil.
    repeat (cbn [occurs String.prefix];
            match goal with
            | |- context [Ascii.ascii_dec ?a ?b] =>
                destruct (Ascii.ascii_dec a b); [discriminate|]
            end; cbn [orb]).
    apply IH.
  - cbn [occurs]. rewrite IH, orb_false_r.
    destruct (String.prefix "Other" (String c (replace_from "Other" "Unknown" O s)))
      eqn:E'; [|done].
    cbn [String.prefix] in E, E'.
    destruct (Ascii.ascii_dec "O" c); [|done].
    apply prefix_after_Other in E'; [congruence|].
    repeat (apply List.Forall_cons; [discriminate|]). apply List.Forall_nil.
Qed.

Lemma RaceClean_of_None_iff r : RaceClean_of r = None ↔ r = None.
Proof. destruct r as [s|]; [|done]. by rewrite RaceClean_of_Some. Qed.

End NormaliserMore.

(** X1: a race string in which none of the six patterns occurs passes
    through the normaliser unchanged. *)
Theorem X1_RaceClean_unmatched_unchanged (s : string) :
  Forall (fun pr => Text.occurs pr.1 s = false) RaceNorm.rules →
  RaceNorm.RaceClean_of (Some s) = Some s.
Proof. apply chain_absent. Qed.

Lemma X1_RaceClean_unmatched_unchanged_witness :
  RaceNorm.RaceClean_of (Some "Hispanic") = Some "Hispanic".
Proof.
  apply (X1_RaceClean_unmatched_unchanged "Hispanic").
  repeat (apply List.Forall_cons; [vm_compute; reflexivity|]). apply List.Forall_nil.
Defined.

(** X2: a null race stays null, and a race that is not null is
    normalised to a string (not to null) that never contains the word
    'Other': every occurrence is rewritten to 'Unknown' by the last rule
    and none is created by it. *)
Theorem X2_RaceClean_never_contains_Other :
  RaceNorm.RaceClean_of None = None
  ∧ ∀ s : string,
      ∃ t, RaceNorm.RaceClean_of (Some s) = Some t ∧ Text.occurs "Other" t = false.
Proof.
  split; [reflexivity|]. intros s.
  rewrite RaceClean_of_Some. eexists. split; [reflexivity|].
  unfold RaceNorm.rules. cbn [foldl]. apply no_Other_after_last_rule.
Qed.

(** ** Label derivation: row counts *)

Section LabelMore.
Import Court.

Lemma filter_ext_in {A} (P Q : A → Prop) `{!∀ x, Decision (P x), !∀ x, Decision (Q x)}
    (l : list A) :
  (∀ x, x ∈ l → P x ↔ Q x) → filter P l = filter Q l.
Proof.
  induction l as [|x l IH]; intros Hext; [done|].
  rewrite !filter_cons.
  rewrite IH by (intros y Hy; apply Hext; by right).
  destruct (decide (P x)) as [HP|HP].
  - rewrite decide_True; [done|]. apply Hext; [left|done].
  - rewrite decide_False; [done|]. intros HQ. apply HP, Hext; [left|done].
Qed.

Lemma length_filter_or {A} (P Q : A → Prop)
    `{!∀ x, Decision (P x), !∀ x, Decision (Q x)} (l : list A) :
  (∀ x, P x → Q x → False) →
  length (filter (fun x => P x ∨ Q x) l)
  = (length (filter P l) + length (filter Q l))%nat.
Proof.
  intros Hex. induction l as [|x l IH]; [done|].
  rewrite !filter_cons.
  destruct (decide (P x)) as [HP|HP], (decide (Q x)) as [HQ|HQ].
  - destruct (Hex x HP HQ).
  - rewrite decide_True by auto. cbn [length]. lia.
  - rewrite decide_True by auto. cbn [length]. lia.
  - rewrite decide_False by tauto. lia.
Qed.

Lemma sum_Z_indicator {A} (P : A → Prop) `{!∀ x, Decision (P x)} (l : list A) :
  Crosstab.sum_Z ((fun x => if decide (P x) then 1 else 0) <$> l)
  = Z.of_nat (length (filter P l)).
Proof.
  unfold Crosstab.sum_Z. induction l as [|x l IH]; [done|].
  rewrite fmap_cons, filter_cons. cbn [foldr]. rewrite IH.
  destruct (decide (P x)); cbn [length]; lia.
Qed.

Lemma filter_ChargeType_filter circuit :
  filter_ChargeType circuit
  = filter (fun r => ChargeType (row r) = Some "Misdemeanor"
                     ∨ ChargeType (row r) = Some "Felony") circuit.
Proof.
  unfold filter_ChargeType, df_filter. apply list_filter_iff. intros r.
  rewrite isin_true. split.
  - intros (v & -> & Hv). apply list_elem_of_In in Hv. simpl in Hv.
    destruct Hv as [<- | [<- | []]]; auto.
  - intros [H | H]; rewrite H; eexists; (split; [reflexivity|]);
      apply list_elem_of_In; simpl; auto.
Qed.

Lemma Felony_withFelony df :
  Felony <$> withFelony df
  = (fun r => if decide (ChargeType (row r) = Some "Felony") then 1 else 0) <$> df.
Proof.
  unfold withFelony. rewrite <- list_fmap_compose. apply list_fmap_ext.
  intros _ r _. simpl. case_decide as H.
  - apply col_eq_true in H. by rewrite H.
  - unfold when_otherwise. destruct (col_eq _ _) as [[]|] eqn:E; try done.
    by apply col_eq_true in E.
Qed.

Lemma RaceClean_withRaceClean raw :
  Forall (fun r => RaceClean r = RaceNorm.RaceClean_of (Race (row r))) (withRaceClean raw).
Proof. unfold withRaceClean. apply Forall_fmap, Forall_true. done. Qed.

Lemma clean_data_elem circuit d : d ∈ data circuit → clean d ∈ circuit.
Proof.
  intros Hd. assert (H : clean d ∈ clean <$> data circuit) by (by apply list_elem_of_fmap_2).
  rewrite clean_data in H. by apply filter_ChargeType_spec in H as [? _].
Qed.

End LabelMore.

(** X3: over any raw table, a retained row's normalised race is the
    chain applied to its raw race, and it is null exactly when the raw
    race is null; so the null group of the cross-tabulation holds exactly
    the retained rows without a raw race. *)
Theorem X3_null_group_is_null_race (raw : list Court.Row) :
  Forall (fun d =>
            Court.RaceClean (Court.clean d)
            = RaceNorm.RaceClean_of (Court.Race (Court.row (Court.clean d)))
            ∧ (Court.RaceClean (Court.clean d) = None
               ↔ Court.Race (Court.row (Court.clean d)) = None))
         (Court.data (Court.withRaceClean raw))
  ∧ Crosstab.group_rows (fun r => Court.RaceClean (Court.clean r)) None
      (Court.data (Court.withRaceClean raw))
    = filter (fun d => Court.Race (Court.row (Court.clean d)) = None)
        (Court.data (Court.withRaceClean raw)).
Proof.
  assert (H : Forall (fun d =>
                        Court.RaceClean (Court.clean d)
                        = RaceNorm.RaceClean_of (Court.Race (Court.row (Court.clean d))))
                     (Court.data (Court.withRaceClean raw))).
  { apply Forall_forall. intros d Hd%clean_data_elem.
    pose proof (RaceClean_withRaceClean raw) as Hall.
    by eapply Forall_forall in Hall. }
  split.
  - eapply Forall_impl; [exact H|]. intros d Hd. split; [done|].
    rewrite Hd. apply RaceClean_of_None_iff.
  - unfold Crosstab.group_rows. apply filter_ext_in. intros d Hd.
    eapply Forall_forall in H; [|exact Hd]. rewrite H. apply RaceClean_of_None_iff.
Qed.

(** X4: [data.count()] is the number of 'Misdemeanor' rows plus the
    number of 'Felony' rows of [circuit], hence at most [circuit.count()],
    and the labels of [data] add up to the number of 'Felony' rows. *)
Theorem X4_data_counts (circuit : list Court.CleanRow) :
  length (Court.data circuit)
  = (length (filter (fun r => Court.ChargeType (Court.row r) = Some "Misdemeanor") circuit)
     + length (filter (fun r => Court.ChargeType (Court.row r) = Some "Felony") circuit))%nat
  ∧ (length (Court.data circuit) ≤ length circuit)%nat
  ∧ Crosstab.sum_Z (Court.Felony <$> Court.data circuit)
    = Z.of_nat (length (filter (fun r => Court.ChargeType (Court.row r) = Some "Felony")
                          circuit)).
Proof.
  assert (Hlen : length (Court.data circuit) = length (Court.filter_ChargeType circuit))
    by (by rewrite <- clean_data, length_fmap).
  split_and!.
  - rewrite Hlen, filter_ChargeType_filter. apply length_filter_or. congruence.
  - rewrite Hlen, filter_ChargeType_filter. apply length_filter.
  - unfold Court.data. rewrite Felony_withFelony, sum_Z_indicator.
    rewrite filter_ChargeType_filter, list_filter_filter. do 2 f_equal.
    apply list_filter_iff. tauto.
Qed.

(** ** Schema with numeric columns *)

Example circuit_columns_distinct :
  NoDup (Schema.lower <$> Schema.circuit_columns)
  ∧ Forall (fun n => n ≠ "") Schema.circuit_columns
  ∧ length Schema.circuit_columns = 50%nat.
Proof.
  split_and!.
  - apply (bool_decide_unpack _). vm_compute. exact I.
  - apply (bool_decide_unpack _). vm_compute. exact I.
  - reflexivity.
Qed.

Example circuit_schema_doubles :
  Schema.name <$> filter (fun f => Schema.dataType f = Schema.DoubleType)
                    (Schema.with_numeric Schema.numeric_circuit Schema.circuit_schema)
  = ["SentenceTime"; "FineAmount"; "Costs"; "ProbationTime"].
Proof. vm_compute. reflexivity. Qed.

(** The circuit list names [FineCostsPaid]; the column of the circuit
    files is [FinesCostPaid], which therefore stays a string. *)
Example circuit_schema_FinesCostPaid :
  filter (fun f => Schema.name f = "FinesCostPaid")
    (Schema.with_numeric Schema.numeric_circuit Schema.circuit_schema)
  = [ {| Schema.name := "FinesCostPaid"; Schema.dataType := Schema.StringType;
         Schema.nullable := true |} ].
Proof. vm_compute. reflexivity. Qed.

(** X5: rebuilding the schema keeps the columns, their names and their
    order; a column is made a nullable double exactly when its name is in
    the list and is left as it was otherwise; rebuilding a rebuilt schema
    changes nothing; and the double columns of the rebuilt schema are, in
    order, the columns of the schema that are named in the list or were
    doubles already (a listed name that is no column converts nothing). *)
Theorem X5_with_numeric (numeric : list string) (schema : list Schema.StructField) :
  Schema.name <$> Schema.with_numeric numeric schema = Schema.name <$> schema
  ∧ Forall2 (fun f g =>
               if decide (Schema.name f ∈ numeric)
               then g = {| Schema.name := Schema.name f;
                           Schema.dataType := Schema.DoubleType;
                           Schema.nullable := true |}
               else g = f)
            schema (Schema.with_numeric numeric schema)
  ∧ Schema.with_numeric numeric (Schema.with_numeric numeric schema)
    = Schema.with_numeric numeric schema
  ∧ Schema.name <$> filter (fun f => Schema.dataType f = Schema.DoubleType)
                      (Schema.with_numeric numeric schema)
    = Schema.name <$> filter (fun f => Schema.name f ∈ numeric
                                       ∨ Schema.dataType f = Schema.DoubleType)
                        schema.
Proof.
  unfold Schema.with_numeric. split_and!.
  - rewrite <- list_fmap_compose. apply list_fmap_ext. intros _ f _. simpl.
    by case_bool_decide.
  - apply Forall2_fmap_r, Forall_Forall2_diag, Forall_true. intros f.
    unfold compose. destruct (decide (Schema.name f ∈ numeric)).
    + by rewrite bool_decide_eq_true_2.
    + by rewrite bool_decide_eq_false_2.
  - rewrite <- list_fmap_compose. apply list_fmap_ext. intros _ f _.
    unfold compose. destruct (decide (Schema.name f ∈ numeric)) as [Hin|Hin].
    + rewrite (bool_decide_eq_true_2 _ Hin). cbn [Schema.name].
      by rewrite (bool_decide_eq_true_2 _ Hin).
    + rewrite (bool_decide_eq_false_2 _ Hin).
      by rewrite (bool_decide_eq_false_2 _ Hin).
  - induction schema as [|f schema IH]; [done|].
    rewrite fmap_cons, !filter_cons.
    case_bool_decide as H.
    + rewrite decide_True by done. rewrite decide_True by tauto.
      rewrite !fmap_cons. cbn [Schema.name]. by rewrite IH.
    + destruct (decide (Schema.dataType f = Schema.DoubleType)) as [Hd|Hd].
      * rewrite decide_True by tauto. rewrite !fmap_cons. by rewrite IH.
      * rewrite decide_False by tauto. exact IH.
Qed.

(** ** Encoder: indices, one-hot vectors and the assembled positions *)

Section EncoderMore.
Import Court Encoder.

Lemma indexer_transform_elem m cur r :
  r ∈ indexer_transform m cur
  ↔ ∃ r0 i, r0 ∈ cur
            ∧ inputCol (feat m) (base r0) ≫= label_index (labels m) = Some i
            ∧ r = {| base := base r0; indices := indices r0 ++ [i] |}.
Proof.
  unfold indexer_transform. rewrite list_elem_of_omap. split.
  - intros (r0 & Hr0 & Hf). apply fmap_Some in Hf as (i & Hi & ->). eauto.
  - intros (r0 & i & Hr0 & Hi & ->). exists r0. split; [done|]. by rewrite Hi.
Qed.

(** A row that leaves the indexer stages carries, after the indices it
    came with, the index of its value for each stage. *)
Lemma transform_stages_elem model cur r :
  r ∈ transform_stages model cur →
  ∃ r0 idx, r0 ∈ cur ∧ base r = base r0 ∧ indices r = (indices r0 ++ idx)%list
            ∧ Forall2 (fun m i =>
                         inputCol (feat m) (base r) ≫= label_index (labels m) = Some i)
                      model idx.
Proof.
  unfold transform_stages. revert cur.
  induction model as [|m model IH]; intros cur; cbn [foldl].
  - intros Hr. exists r, []. rewrite app_nil_r. split_and!; [done..|constructor].
  - intros Hr. apply IH in Hr as (r1 & idx & Hr1 & Hb & Hi & HF).
    apply indexer_transform_elem in Hr1 as (r0 & i & Hr0 & Hidx & ->).
    cbn [base indices] in *. exists r0, (i :: idx). split_and!; [done..| |].
    + by rewrite Hi, <- app_assoc.
    + constructor; [by rewrite Hb | done].
Qed.

Lemma transform_stages_enter_elem model df r :
  r ∈ transform_stages model (enter df) →
  base r ∈ df
  ∧ Forall2 (fun m i => inputCol (feat m) (base r) ≫= label_index (labels m) = Some i)
            model (indices r).
Proof.
  intros (r0 & idx & Hr0 & Hb & Hi & HF)%transform_stages_elem.
  unfold enter in Hr0. apply list_elem_of_fmap in Hr0 as (d & -> & Hd).
  simpl in Hi, Hb. rewrite Hi. split; [by rewrite Hb | done].
Qed.

Lemma va_row_prow inputCols model r e : va_row inputCols model r = Some e → prow e = r.
Proof. unfold va_row. intros (blocks & _ & ->)%fmap_Some. done. Qed.

Lemma transform_elem p model df out e :
  transform p model df = Some out → e ∈ out →
  va_row (va p) model (prow e) = Some e
  ∧ prow e ∈ transform_stages model (enter df).
Proof.
  unfold transform, va_transform. destruct (decide (encodable model)); [|done].
  intros HF%mapM_Some_1 He.
  apply list_elem_of_lookup in He as [j Hj].
  destruct (Forall2_lookup_r _ _ _ _ _ HF Hj) as (r & Hr & Hrow).
  rewrite (va_row_prow _ _ _ _ Hrow). split; [done|].
  by eapply list_elem_of_lookup_2.
Qed.

Lemma label_index_lookup labels v i : label_index labels v = Some i → labels !! i = Some v.
Proof.
  unfold label_index. intros ([j w] & (Hj & <- & _)%list_find_Some & ->)%fmap_Some. done.
Qed.

Lemma length_one_hot n i : length (one_hot n i) = Nat.pred n.
Proof. unfold one_hot. by rewrite length_fmap, length_seq. Qed.

Lemma one_hot_lookup n i j x :
  one_hot n i !! j = Some x
  ↔ (j < Nat.pred n)%nat ∧ x = if bool_decide (j = i) then 1 else 0.
Proof.
  unfold one_hot. rewrite list_lookup_fmap, fmap_Some. split.
  - intros (j' & [-> Hlt]%lookup_seq & ->). done.
  - intros [Hlt ->]. exists j. split; [|done]. by apply lookup_seq.
Qed.

Lemma one_hot_inj n i j :
  (i < n)%nat → (j < n)%nat → one_hot n i = one_hot n j → i = j.
Proof.
  intros Hi Hj Heq. destruct (decide (i = j)) as [|Hne]; [done|]. exfalso.
  assert (Hk : ∃ k, (k < Nat.pred n)%nat ∧ (k = i ∨ k = j)).
  { destruct (decide (i < j)%nat); [exists i | exists j]; split; auto; lia. }
  destruct Hk as (k & Hk & Hor).
  assert (H1 : one_hot n i !! k = Some (if bool_decide (k = i) then 1 else 0))
    by (by apply one_hot_lookup).
  rewrite Heq in H1. apply one_hot_lookup in H1 as [_ H1].
  destruct Hor as [-> | ->].
  - rewrite bool_decide_eq_true_2 in H1 by done.
    rewrite bool_decide_eq_false_2 in H1 by done. done.
  - rewrite bool_decide_eq_false_2 in H1 by (intros ->; done).
    rewrite bool_decide_eq_true_2 in H1 by done. done.
Qed.

End EncoderMore.

(** X6: a notebook pipeline fitted on a dataframe on which it can be
    fitted (every indexer finds at least two labels) produces a dataset
    in which every row carries one index per indexer stage, and looking
    that index up in the stage's labels gives back the row's value of the
    indexed column (which is therefore not null). *)
Theorem X6_index_gives_back_value (p : Encoder.Pipeline) (train test : list Court.DataRow) :
  p ∈ [Encoder.pipeline; Encoder.pipeline_mj; Encoder.pipeline_district] →
  Encoder.encodable (Encoder.fit p train) →
  ∃ out,
    Encoder.transform p (Encoder.fit p train) test = Some out
    ∧ Forall (fun e =>
                Forall2 (fun m i =>
                           Encoder.labels m !! i
                           = Encoder.inputCol (Encoder.feat m)
                               (Encoder.base (Encoder.prow e))
                           ∧ is_Some (Encoder.labels m !! i))
                        (Encoder.fit p train) (Encoder.indices (Encoder.prow e)))
             out.
Proof.
  intros Hp Henc.
  destruct (transform_fit_Some p train test Hp Henc) as (out & Hout & _).
  exists out. split; [done|]. apply Forall_forall. intros e He.
  destruct (transform_elem _ _ _ _ _ Hout He) as [_ Hr].
  apply transform_stages_enter_elem in Hr as [_ HF].
  eapply Forall2_impl; [exact HF|]. intros m i Hi. cbn beta in Hi.
  apply bind_Some in Hi as (v & Hv & Hidx%label_index_lookup).
  rewrite Hv, Hidx. eauto.
Qed.

Lemma X6_index_gives_back_value_witness :
  ∃ out,
    Encoder.transform Encoder.pipeline (Encoder.fit Encoder.pipeline Sample.fit_data)
      Sample.fit_test = Some out
    ∧ Forall (fun e =>
                Forall2 (fun m i =>
                           Encoder.labels m !! i
                           = Encoder.inputCol (Encoder.feat m)
                               (Encoder.base (Encoder.prow e))
                           ∧ is_Some (Encoder.labels m !! i))
                        (Encoder.fit Encoder.pipeline Sample.fit_data)
                        (Encoder.indices (Encoder.prow e)))
             out.
Proof.
  apply (X6_index_gives_back_value Encoder.pipeline Sample.fit_data Sample.fit_test).
  - left.
  - apply (bool_decide_unpack _). vm_compute. exact I.
Defined.

(** X7: the one-hot vector of an index has one position per category but
    the last, holds a one exactly at the index and zeros elsewhere (so the
    last category is the zero vector), and two categories of the same
    column never share a vector. *)
Theorem X7_one_hot (n i j : nat) :
  length (Encoder.one_hot n i) = Nat.pred n
  ∧ (∀ k x, Encoder.one_hot n i !! k = Some x
            ↔ (k < Nat.pred n)%nat ∧ x = if bool_decide (k = i) then 1 else 0)
  ∧ ((i < n)%nat → (j < n)%nat →
     Encoder.one_hot n i = Encoder.one_hot n j → i = j).
Proof.
  split_and!.
  - apply length_one_hot.
  - intros k x. apply one_hot_lookup.
  - apply one_hot_inj.
Qed.

Section AssemblerMore.
Import Court Encoder.

Lemma NoDup_labels_fit_stages stages df :
  Forall (fun m => NoDup (labels m)) (fit_stages stages df).
Proof.
  revert df. induction stages as [|f stages IH]; intros df; cbn [fit_stages].
  - constructor.
  - constructor; [apply NoDup_fit_labels | apply IH].
Qed.

(** Two lists of blocks of pairwise equal lengths, joined and zipped. *)
Lemma Forall_zip_join {A B} (P : A * B → Prop) (xs : list (list A)) (ys : list (list B)) :
  Forall2 (fun x y => length x = length y ∧ Forall P (zip x y)) xs ys →
  length (mjoin xs) = length (mjoin ys) ∧ Forall P (zip (mjoin xs) (mjoin ys)).
Proof.
  induction 1 as [|x y xs ys [Hlen HP] _ [IHlen IHP]]; [by split|].
  change (mjoin (x :: xs)) with (x ++ mjoin xs)%list.
  change (mjoin (y :: ys)) with (y ++ mjoin ys)%list. split.
  - by rewrite !length_app, Hlen, IHlen.
  - rewrite zip_with_app by done. apply Forall_app. done.
Qed.

Lemma Forall2_common {A B C} (P : A → B → Prop) (Q : A → C → Prop) l k1 k2 :
  Forall2 P l k1 → Forall2 Q l k2 →
  Forall2 (fun y z => ∃ x, x ∈ l ∧ P x y ∧ Q x z) k1 k2.
Proof.
  intros HP. revert k2. induction HP as [|x y l k1 Hxy _ IH]; intros k2 HQ.
  - inversion HQ. constructor.
  - inversion HQ as [|? z ? k2' Hxz HQ']; subst. constructor.
    + exists x. split; [left | done].
    + eapply Forall2_impl; [apply IH, HQ'|].
      intros y' z' (x' & Hx' & ? & ?). exists x'. split; [by right | done].
Qed.

(** One block: the names of a stage's positions against the one-hot
    vector of a row whose value has index [i]. *)
Lemma zip_block name (lbls : list string) (c : option string) i :
  NoDup lbls → c ≫= label_index lbls = Some i →
  length (oh_names name lbls) = length (one_hot (length lbls) i)
  ∧ Forall (fun nx => ∃ l, l ∈ lbls ∧ nx.1 = name +:+ "_" +:+ l
                          ∧ nx.2 = if bool_decide (c = Some l) then 1 else 0)
           (zip (oh_names name lbls) (one_hot (length lbls) i)).
Proof.
  intros Hnd (v & -> & Hv%label_index_lookup)%bind_Some. split.
  - by rewrite length_oh_names, length_one_hot.
  - apply Forall_lookup. intros j [nm x] Hj.
    apply lookup_zip_with_Some in Hj as (a & b & [= -> ->] & Ha & Hb).
    apply one_hot_lookup in Hb as [Hlt ->].
    unfold oh_names in Ha. rewrite list_lookup_fmap, lookup_take_lt in Ha by done.
    apply fmap_Some in Ha as (l & Hl & ->).
    exists l. split_and!; [by eapply list_elem_of_lookup_2 | done |]. cbn [snd].
    destruct (decide (j = i)) as [->|Hne].
    + rewrite bool_decide_eq_true_2 by done.
      rewrite bool_decide_eq_true_2; [done|]. congruence.
    + rewrite bool_decide_eq_false_2 by done.
      rewrite bool_decide_eq_false_2; [done|]. intros [= ->].
      apply Hne. eapply NoDup_lookup; eauto.
Qed.

(** The names and the vector of an encoded row, block by block. *)
Lemma names_features model inputCols names r e :
  Forall (fun m => NoDup (labels m)) model →
  Forall2 (fun m i => inputCol (feat m) (base r) ≫= label_index (labels m) = Some i)
          model (indices r) →
  va_names inputCols model = Some names →
  va_row inputCols model r = Some e →
  length names = length (features e)
  ∧ Forall (fun nx => ∃ m l, m ∈ model ∧ l ∈ labels m
                            ∧ nx.1 = ohCol (feat m) +:+ "_" +:+ l
                            ∧ nx.2 = if bool_decide (inputCol (feat m) (base r) = Some l)
                                     then 1 else 0)
           (zip names (features e)).
Proof.
  intros Hnd Hidx Hnames Hrow.
  unfold va_names in Hnames. apply fmap_Some in Hnames as (nbs & Hnbs%mapM_Some_1 & ->).
  unfold va_row in Hrow. apply fmap_Some in Hrow as (bs & Hbs%mapM_Some_1 & ->).
  cbn [features]. apply Forall_zip_join.
  eapply Forall2_impl; [apply (Forall2_common _ _ _ _ _ Hnbs Hbs)|].
  intros nb b (name & _ & Hnb & Hb). cbn beta in Hnb, Hb.
  apply fmap_Some in Hnb as ([k m] & Hfind & ->). cbn [snd].
  unfold va_block in Hb. rewrite Hfind in Hb. cbn in Hb.
  apply bind_Some in Hb as (i & Hi & [_ ->]%oh_encode_inv).
  apply list_find_Some in Hfind as (Hk & <- & _).
  pose proof (Forall2_lookup_lr _ _ _ _ _ _ Hidx Hk Hi) as Hval. cbn beta in Hval.
  pose proof (list_elem_of_lookup_2 _ _ _ Hk) as Hm.
  destruct (zip_block (ohCol (feat m)) (labels m) (inputCol (feat m) (base r)) i)
    as [Hlen HP]; [by eapply Forall_forall in Hnd | done |].
  split; [done|]. eapply Forall_impl; [exact HP|].
  intros nx (l & Hl & H1 & H2). eauto 10.
Qed.

Lemma va_names_fit_Some p train :
  p ∈ [pipeline; pipeline_mj; pipeline_district] →
  is_Some (va_names (va p) (fit p train)).
Proof.
  intros Hp. unfold va_names. apply fmap_is_Some, mapM_is_Some.
  pose proof (va_resolved p Hp) as Hv.
  eapply Forall_impl; [exact Hv|]. intros name Hname. unfold compose.
  apply fmap_is_Some.
  assert (Hin : name ∈ (fun m => ohCol (feat m)) <$> fit p train).
  { unfold fit. rewrite (list_fmap_compose feat ohCol), feat_fit_stages. done. }
  apply list_elem_of_fmap in Hin as (m & -> & Hm).
  by eapply (list_find_elem_of (fun m' => ohCol (feat m') = ohCol (feat m))).
Qed.

(** The vector of a row is a function of its indices. *)
Lemma va_row_features inputCols model r1 r2 e1 e2 :
  indices r1 = indices r2 →
  va_row inputCols model r1 = Some e1 → va_row inputCols model r2 = Some e2 →
  features e1 = features e2.
Proof.
  intros Hidx. unfold va_row.
  assert (Hb : mapM (va_block model r1) inputCols = mapM (va_block model r2) inputCols).
  { f_equal. unfold va_block. by rewrite Hidx. }
  rewrite Hb. intros (bs & -> & ->)%fmap_Some (bs' & [= <-] & ->)%fmap_Some. done.
Qed.

Lemma Forall2_index_unique model (c1 c2 : IndexerModel → option string) idx1 idx2 :
  Forall (fun m => c1 m = c2 m) model →
  Forall2 (fun m i => c1 m ≫= label_index (labels m) = Some i) model idx1 →
  Forall2 (fun m i => c2 m ≫= label_index (labels m) = Some i) model idx2 →
  idx1 = idx2.
Proof.
  intros Heq H1. revert idx2. induction H1 as [|m i model idx1 Hi _ IH]; intros idx2 H2.
  - by inversion H2.
  - inversion H2 as [|? j ? idx2' Hj H2']; subst.
    apply Forall_cons in Heq as [Hm Heq]. rewrite Hm in Hi.
    f_equal; [congruence | by apply IH].
Qed.

End AssemblerMore.

(** X8: for a notebook pipeline fitted on a dataframe on which it can
    be fitted (every indexer finds at least two labels), the list of names
    read from the metadata and the feature vector of every encoded row
    have the same length, and position by position they agree in meaning: each name is
    an encoder's output column, an underscore and one of that stage's
    labels, and the value at that position is 1 exactly when the row's
    value of the stage's input column is that label, 0 otherwise.  This is
    what pairing coefficients or importances with the names relies on. *)
Theorem X8_names_describe_features (p : Encoder.Pipeline) (train test : list Court.DataRow) :
  p ∈ [Encoder.pipeline; Encoder.pipeline_mj; Encoder.pipeline_district] →
  Encoder.encodable (Encoder.fit p train) →
  ∃ out names,
    Encoder.transform p (Encoder.fit p train) test = Some out
    ∧ Encoder.va_names (Encoder.va p) (Encoder.fit p train) = Some names
    ∧ Forall (fun e =>
                length names = length (Encoder.features e)
                ∧ Forall (fun nx =>
                            ∃ m l,
                              m ∈ Encoder.fit p train ∧ l ∈ Encoder.labels m
                              ∧ nx.1 = Encoder.ohCol (Encoder.feat m) +:+ "_" +:+ l
                              ∧ nx.2 = if bool_decide
                                            (Encoder.inputCol (Encoder.feat m)
                                               (Encoder.base (Encoder.prow e)) = Some l)
                                       then 1 else 0)
                         (zip names (Encoder.features e)))
             out.
Proof.
  intros Hp Henc.
  destruct (transform_fit_Some p train test Hp Henc) as (out & Hout & _).
  destruct (va_names_fit_Some p train Hp) as [names Hnames].
  exists out, names. split_and!; [done..|].
  apply Forall_forall. intros e He.
  destruct (transform_elem _ _ _ _ _ Hout He) as [Hrow Hr].
  apply transform_stages_enter_elem in Hr as [_ HF].
  eapply names_features; eauto. apply NoDup_labels_fit_stages.
Qed.

Lemma X8_names_describe_features_witness :
  ∃ out names,
    Encoder.transform Encoder.pipeline (Encoder.fit Encoder.pipeline Sample.fit_data)
      Sample.fit_test = Some out
    ∧ Encoder.va_names (Encoder.va Encoder.pipeline)
        (Encoder.fit Encoder.pipeline Sample.fit_data) = Some names
    ∧ Forall (fun e =>
                length names = length (Encoder.features e)
                ∧ Forall (fun nx =>
                            ∃ m l,
                              m ∈ Encoder.fit Encoder.pipeline Sample.fit_data
                              ∧ l ∈ Encoder.labels m
                              ∧ nx.1 = Encoder.ohCol (Encoder.feat m) +:+ "_" +:+ l
                              ∧ nx.2 = if bool_decide
                                            (Encoder.inputCol (Encoder.feat m)
                                               (Encoder.base (Encoder.prow e)) = Some l)
                                       then 1 else 0)
                         (zip names (Encoder.features e)))
             out.
Proof.
  apply (X8_names_describe_features Encoder.pipeline Sample.fit_data Sample.fit_test).
  - left.
  - apply (bool_decide_unpack _). vm_compute. exact I.
Defined.

(** X9: a notebook pipeline fitted on a dataframe on which it can be
    fitted (every indexer finds at least two labels) produces a dataset
    in which two rows that agree on every indexed column have the same
    feature vector, whatever their
    other columns and their label; with the marijuana pipeline, the same
    sex and normalised race give the same vector, hence the same
    prediction. *)
Theorem X9_same_predictors_same_features
    (p : Encoder.Pipeline) (train test : list Court.DataRow) :
  p ∈ [Encoder.pipeline; Encoder.pipeline_mj; Encoder.pipeline_district] →
  Encoder.encodable (Encoder.fit p train) →
  ∃ out,
    Encoder.transform p (Encoder.fit p train) test = Some out
    ∧ ∀ e1 e2,
        e1 ∈ out → e2 ∈ out →
        Forall (fun f => Encoder.inputCol f (Encoder.base (Encoder.prow e1))
                         = Encoder.inputCol f (Encoder.base (Encoder.prow e2)))
               (Encoder.stages p) →
        Encoder.features e1 = Encoder.features e2.
Proof.
  intros Hp Henc.
  destruct (transform_fit_Some p train test Hp Henc) as (out & Hout & _).
  exists out. split; [done|]. intros e1 e2 He1 He2 Hsame.
  destruct (transform_elem _ _ _ _ _ Hout He1) as [Hrow1 Hr1].
  destruct (transform_elem _ _ _ _ _ Hout He2) as [Hrow2 Hr2].
  apply transform_stages_enter_elem in Hr1 as [_ HF1].
  apply transform_stages_enter_elem in Hr2 as [_ HF2].
  eapply va_row_features; [|exact Hrow1|exact Hrow2].
  eapply (Forall2_index_unique (Encoder.fit p train)
            (fun m => Encoder.inputCol (Encoder.feat m) (Encoder.base (Encoder.prow e1)))
            (fun m => Encoder.inputCol (Encoder.feat m) (Encoder.base (Encoder.prow e2))));
    [|exact HF1|exact HF2].
  unfold Encoder.fit. rewrite <- (feat_fit_stages (Encoder.stages p) (Encoder.enter train)) in Hsame.
  by apply Forall_fmap in Hsame.
Qed.

Lemma X9_same_predictors_same_features_witness :
  ∃ out,
    Encoder.transform Encoder.pipeline_mj
      (Encoder.fit Encoder.pipeline_mj SampleMj.data) SampleMj.data = Some out
    ∧ ∀ e1 e2,
        e1 ∈ out → e2 ∈ out →
        Forall (fun f => Encoder.inputCol f (Encoder.base (Encoder.prow e1))
                         = Encoder.inputCol f (Encoder.base (Encoder.prow e2)))
               (Encoder.stages Encoder.pipeline_mj) →
        Encoder.features e1 = Encoder.features e2.
Proof.
  apply (X9_same_predictors_same_features Encoder.pipeline_mj SampleMj.data SampleMj.data).
  - right. left.
  - apply (bool_decide_unpack _). vm_compute. exact I.
Defined.

(** The first two rows of the sample agree on sex and race and differ in
    their label; their vectors are equal. *)
Example same_features_sample :
  (fun e => (Court.Felony (Encoder.base (Encoder.prow e)), Encoder.features e))
    <$> default [] (Encoder.transform Encoder.pipeline_mj
                      (Encoder.fit Encoder.pipeline_mj SampleMj.data) SampleMj.data)
  = [ (1, [1; 1]); (0, [1; 1]); (1, [0; 0]) ].
Proof. vm_compute. reflexivity. Qed.

(** X10: when a notebook pipeline is fitted on a dataframe on which it
    can be fitted (every indexer finds at least two labels) and applied to
    the same dataframe, as in [model = pipeline.fit(data)];
    [pred = model.transform(data)], no value is out of vocabulary: the
    rows of the result are exactly the rows none of whose indexed columns
    is null, in their order. *)
Theorem X10_fit_transform_same_data (p : Encoder.Pipeline) (df : list Court.DataRow) :
  p ∈ [Encoder.pipeline; Encoder.pipeline_mj; Encoder.pipeline_district] →
  Encoder.encodable (Encoder.fit p df) →
  ∃ out,
    Encoder.transform p (Encoder.fit p df) df = Some out
    ∧ (fun e => Encoder.base (Encoder.prow e)) <$> out
      = filter (fun r => Forall (fun f => is_Some (Encoder.inputCol f r)) (Encoder.stages p))
          df.
Proof.
  intros Hp Henc.
  destruct (transform_fit_Some p df df Hp Henc) as (out & Hout & Hbase).
  exists out. split; [done|]. rewrite Hbase.
  apply filter_ext_in. intros r Hr. by apply valid_row_fit_same.
Qed.

Lemma X10_fit_transform_same_data_witness :
  ∃ out,
    Encoder.transform Encoder.pipeline (Encoder.fit Encoder.pipeline Sample.fit_data)
      Sample.fit_data = Some out
    ∧ (fun e => Encoder.base (Encoder.prow e)) <$> out
      = filter (fun r => Forall (fun f => is_Some (Encoder.inputCol f r))
                           (Encoder.stages Encoder.pipeline))
          Sample.fit_data.
Proof.
  apply (X10_fit_transform_same_data Encoder.pipeline Sample.fit_data).
  - left.
  - apply (bool_decide_unpack _). vm_compute. exact I.
Defined.

(** ** Cross-tabulation: totals, bounds and the filtered cell *)

Section CrosstabMore.
Import Court Crosstab.

Lemma sum_Z_pick {K} `{EqDecision K} (ks : list K) (k0 : K) (a : Z) :
  NoDup ks → k0 ∈ ks →
  sum_Z ((fun k => if decide (k0 = k) then a else 0) <$> ks) = a.
Proof.
  unfold sum_Z. induction 1 as [|k ks Hk Hnd IH]; intros Hin.
  - by apply elem_of_nil in Hin.
  - rewrite fmap_cons. cbn [foldr]. destruct (decide (k0 = k)) as [->|Hne].
    + assert (H0 : foldr Z.add 0 ((fun k' => if decide (k = k') then a else 0) <$> ks) = 0).
      { clear IH Hin Hnd. induction ks as [|k' ks IH]; [done|].
        rewrite fmap_cons. cbn [foldr].
        rewrite decide_False by (intros ->; apply Hk; left).
        rewrite IH; [done|]. intros H. apply Hk. by right. }
      rewrite H0. lia.
    + apply elem_of_cons in Hin as [?|Hin]; [done|]. rewrite IH by done. lia.
Qed.

Lemma sum_Z_add {A} (f g : A → Z) (l : list A) :
  sum_Z ((fun x => f x + g x) <$> l) = sum_Z (f <$> l) + sum_Z (g <$> l).
Proof.
  unfold sum_Z. induction l as [|x l IH]; [done|].
  rewrite !fmap_cons. cbn [foldr]. rewrite IH. lia.
Qed.

(** Summing a weight group by group, over distinct keys that cover the
    rows, is summing it over the rows. *)
Lemma sum_Z_groups (key : DataRow → option string) (w : DataRow → Z)
    (ks : list (option string)) (df : list DataRow) :
  NoDup ks → (∀ r, r ∈ df → key r ∈ ks) →
  sum_Z ((fun k => sum_Z (w <$> group_rows key k df)) <$> ks) = sum_Z (w <$> df).
Proof.
  intros Hnd. unfold group_rows. induction df as [|r df IH]; intros Hcov.
  - cbn. clear. induction ks as [|k ks IH]; [done|].
    rewrite fmap_cons. unfold sum_Z in *. cbn [foldr]. by rewrite IH.
  - rewrite fmap_cons. unfold sum_Z at 3. cbn [foldr]. fold (sum_Z (w <$> df)).
    rewrite <- IH by (intros; apply Hcov; by right).
    rewrite <- (sum_Z_pick ks (key r) (w r) Hnd) at 1 by (apply Hcov; left).
    rewrite <- sum_Z_add. f_equal. apply list_fmap_ext. intros _ k _.
    rewrite filter_cons. destruct (decide (key r = k)) as [Hk|Hk].
    + rewrite fmap_cons. unfold sum_Z. cbn [foldr]. done.
    + lia.
Qed.

Lemma F_count_sum (key : DataRow → option string) (rows : list DataRow) :
  F_count (key <$> rows)
  = sum_Z ((fun r => if decide (is_Some (key r)) then 1 else 0) <$> rows).
Proof.
  unfold F_count, sum_Z. induction rows as [|r rows IH]; [done|].
  rewrite !fmap_cons. cbn [foldr]. rewrite <- IH.
  destruct (key r) as [v|] eqn:E.
  - change (omap id (Some v :: (key <$> rows))) with (v :: omap id (key <$> rows)).
    rewrite decide_True by eauto. cbn [length]. lia.
  - change (omap id (None :: (key <$> rows))) with (omap id (key <$> rows)).
    rewrite decide_False by (intros [? ?]; done). lia.
Qed.

Lemma fel_fmap {B} (h : FelRow → B) df :
  h <$> fel df
  = (fun k => h {| RaceClean_key := k;
                   count := F_count ((fun r => RaceClean (clean r))
                                       <$> group_rows (fun r => RaceClean (clean r)) k df);
                   n_felonies := F_sum (Felony <$> group_rows (fun r => RaceClean (clean r))
                                                     k df) |})
      <$> remove_dups ((fun r => RaceClean (clean r)) <$> df).
Proof. unfold fel, groupBy. by rewrite <- !list_fmap_compose. Qed.

Lemma sum_Z_bounds (l : list Z) :
  Forall (fun x => 0 ≤ x ≤ 1) l → 0 ≤ sum_Z l ≤ Z.of_nat (length l).
Proof.
  unfold sum_Z. induction 1 as [|x l Hx _ IH]; [done|].
  cbn [foldr length]. lia.
Qed.

Lemma isin_singleton c x : isin c [x] = col_eq c x.
Proof.
  unfold isin, col_eq. destruct c as [v|]; [|done]. cbn. f_equal.
  apply bool_decide_ext. rewrite list_elem_of_singleton. done.
Qed.

End CrosstabMore.

(** X11: the groups of a cross-tabulation have distinct keys; their
    [n_felonies] add up to the sum of the label over all rows of the
    dataframe, while their [count]s add up to the number of rows whose
    normalised race is not null (the rows of the null group are in the
    first total and not in the second). *)
Theorem X11_crosstab_totals (df : list Court.DataRow) :
  NoDup (Crosstab.RaceClean_key <$> Crosstab.fel df)
  ∧ Crosstab.sum_Z ((fun g => default 0 (Crosstab.n_felonies g)) <$> Crosstab.fel df)
    = Crosstab.sum_Z (Court.Felony <$> df)
  ∧ Crosstab.sum_Z (Crosstab.count <$> Crosstab.fel df)
    = Z.of_nat (length (filter (fun r => is_Some (Court.RaceClean (Court.clean r))) df)).
Proof.
  split_and!.
  - rewrite fel_fmap. cbn [Crosstab.RaceClean_key]. rewrite list_fmap_id.
    apply NoDup_remove_dups.
  - rewrite fel_fmap. cbn [Crosstab.n_felonies].
    rewrite <- (sum_Z_groups (fun r => Court.RaceClean (Court.clean r)) Court.Felony
                  (remove_dups ((fun r => Court.RaceClean (Court.clean r)) <$> df)) df).
    + f_equal. apply list_fmap_ext. intros _ k _.
      by destruct (Court.Felony <$> Crosstab.group_rows _ k df).
    + apply NoDup_remove_dups.
    + intros r Hr. apply elem_of_remove_dups.
      by apply (list_elem_of_fmap_2 (fun r => Court.RaceClean (Court.clean r))).
  - rewrite fel_fmap. cbn [Crosstab.count].
    rewrite <- sum_Z_indicator.
    rewrite <- (sum_Z_groups (fun r => Court.RaceClean (Court.clean r))
                  (fun r => if decide (is_Some (Court.RaceClean (Court.clean r)))
                            then 1 else 0)
                  (remove_dups ((fun r => Court.RaceClean (Court.clean r)) <$> df)) df).
    + f_equal. apply list_fmap_ext. intros _ k _. apply F_count_sum.
    + apply NoDup_remove_dups.
    + intros r Hr. apply elem_of_remove_dups.
      by apply (list_elem_of_fmap_2 (fun r => Court.RaceClean (Court.clean r))).
Qed.

(** X12: over [data] (labels 0 and 1), every normalised race of a row
    has its group in the cross-tab, and every group of the cross-tab with
    a non-null key has a positive [count], an [n_felonies] between 0 and
    that [count], and a rate that is not null: the double quotient of
    these two numbers. *)
Theorem X12_felonies_at_most_count {Double : Type} (fdiv : Z → Z → Double)
    (circuit : list Court.CleanRow) :
  (∀ v, Some v ∈ (fun r => Court.RaceClean (Court.clean r)) <$> Court.data circuit →
        ∃ g, g ∈ Rate.crosstab fdiv (Court.data circuit)
             ∧ Crosstab.RaceClean_key (Rate.fel_row g) = Some v)
  ∧ Forall (fun g =>
              is_Some (Crosstab.RaceClean_key (Rate.fel_row g)) →
              ∃ n, Crosstab.n_felonies (Rate.fel_row g) = Some n
                   ∧ 0 ≤ n ≤ Crosstab.count (Rate.fel_row g)
                   ∧ 0 < Crosstab.count (Rate.fel_row g)
                   ∧ Rate.percent g = Some (fdiv n (Crosstab.count (Rate.fel_row g))))
           (Rate.crosstab fdiv (Court.data circuit)).
Proof.
  rewrite crosstab_rows. split.
  - intros v Hv. eexists. split.
    + apply list_elem_of_fmap_2, elem_of_remove_dups. exact Hv.
    + reflexivity.
  - apply Forall_fmap, Forall_forall. intros k Hk [v Hv]. simpl in Hv. subst k.
    simpl. rewrite elem_of_remove_dups in Hk.
    pose proof (group_rows_nonempty _ _ _ Hk) as Hne.
    set (rows := Crosstab.group_rows (fun r => Court.RaceClean (Court.clean r)) (Some v)
                   (Court.data circuit)) in *.
    assert (Hb : 0 ≤ Crosstab.sum_Z (Court.Felony <$> rows) ≤ Z.of_nat (length rows)).
    { rewrite <- (length_fmap Court.Felony). apply sum_Z_bounds.
      apply Forall_fmap, Forall_forall. intros d Hd. unfold compose.
      apply list_elem_of_filter in Hd as [_ Hd].
      rewrite (Felony_data circuit d Hd). case_decide; lia. }
    assert (Hpos : 0 < Z.of_nat (length rows)) by (destruct rows; [done | simpl; lia]).
    eexists. split; [reflexivity|]. split_and!; [lia..|].
    rewrite decide_False by lia. reflexivity.
Qed.

(** X13: the second cross-tab cell filters with
    [CodeSection == '18.2-248.1'], the marijuana model with
    [CodeSection.isin(['18.2-248.1'])]; the two select the same rows, so
    that cell is the cross-tabulation of [data_mj]. *)
Theorem X13_crosstab_charge_is_crosstab_of_data_mj (data : list Court.DataRow) :
  Court.df_filter
    (fun r => Court.col_eq (Court.CodeSection (Court.row (Court.clean r))) "18.2-248.1") data
  = Trainer.data_mj data
  ∧ Crosstab.crosstab_charge data = Crosstab.crosstab (Trainer.data_mj data).
Proof.
  assert (H : Court.df_filter
                (fun r => Court.col_eq (Court.CodeSection (Court.row (Court.clean r)))
                            "18.2-248.1") data
              = Trainer.data_mj data).
  { unfold Trainer.data_mj, Court.df_filter. apply list_filter_iff. intros r.
    by rewrite isin_singleton. }
  split; [done|]. unfold Crosstab.crosstab_charge, Crosstab.crosstab. by rewrite H.
Qed.

(** ** Census: the 2019 slice, and running the recode cell again *)

Section CensusMore.
Import Census Census19.

Lemma filter_fmap_comm {A B} (f : A → B) (P : B → Prop) `{!∀ y, Decision (P y)}
    (l : list A) :
  filter P (f <$> l) = f <$> filter (fun x => P (f x)) l.
Proof.
  induction l as [|x l IH]; [done|].
  rewrite fmap_cons, !filter_cons. destruct (decide (P (f x))).
  - by rewrite fmap_cons, IH.
  - exact IH.
Qed.

Lemma census19_filter census :
  census19 census = filter (fun r => AGEGRP r = 0 ∧ YEAR r = 12) census.
Proof.
  unfold census19. rewrite !boolean_index_fmap, list_filter_filter.
  apply list_filter_iff. intros r. rewrite !bool_decide_eq_true. done.
Qed.

Lemma first_choice_2019 y : first_choice y = 2019 ↔ y = 12.
Proof.
  unfold first_choice. simpl. repeat case_bool_decide; lia.
Qed.

Lemma first_choice_range y : first_choice y = 0 ∨ 2010 ≤ first_choice y ≤ 2019.
Proof.
  unfold first_choice. simpl. repeat case_bool_decide; lia.
Qed.

Lemma first_choice_twice y : first_choice (first_choice y) = 0.
Proof.
  apply first_choice_default. destruct (first_choice_range y); lia.
Qed.

End CensusMore.

(** X14: filtering in two steps, first the year code 12 and then the
    total age group, keeps the rows that satisfy both tests; and the rows
    of the cleaned table whose [YEAR] is 2019 are exactly those rows,
    without the two dropped columns and with the year 2019. *)
Theorem X14_census19_is_the_2019_slice (census : list Census.Row) :
  Census19.census19 census
  = filter (fun r => Census.AGEGRP r = 0 ∧ Census.YEAR r = 12) census
  ∧ filter (fun r' => Census.YEAR' r' = 2019) (Census.census_clean census)
    = (fun r => Census.drop_columns (Census.set_YEAR r 2019))
        <$> Census19.census19 census.
Proof.
  split; [apply census19_filter|].
  rewrite census_clean_rows, filter_fmap_comm. cbn [Census.YEAR' Census.drop_columns
                                                  Census.YEAR Census.set_YEAR].
  rewrite census19_filter, filter_rows_filter, list_filter_filter.
  assert (Hf : filter (fun r => Census.first_choice (Census.YEAR r) = 2019
                                ∧ Census.AGEGRP r = 0 ∧ 3 ≤ Census.YEAR r) census
               = filter (fun r => Census.AGEGRP r = 0 ∧ Census.YEAR r = 12) census).
  { apply list_filter_iff. intros r. rewrite first_choice_2019. lia. }
  rewrite Hf. apply list_fmap_ext. intros i r Hr.
  apply list_elem_of_lookup_2, list_elem_of_filter in Hr as [[_ Hy] _].
  rewrite Hy. done.
Qed.

(** X15: the recode cell is not idempotent: it tests the year column it
    overwrites, so running it a second time finds no code between 3 and
    12 and sets the [YEAR] of every row to the default 0, leaving the
    other columns as they are. *)
Theorem X15_recode_twice_zeroes (df : list Census.Row) :
  Census.recode_YEAR (Census.recode_YEAR df) = (fun r => Census.set_YEAR r 0) <$> df.
Proof.
  rewrite !recode_YEAR_rows, <- list_fmap_compose.
  apply list_fmap_ext. intros _ r _. unfold compose, Census.set_YEAR.
  cbn [Census.YEAR Census.SUMLEV Census.STATE Census.COUNTY Census.STNAME
       Census.CTYNAME Census.AGEGRP Census.POP].
  by rewrite first_choice_twice.
Qed.

Example recode_twice_sample :
  Census.YEAR <$> Census.recode_YEAR (Census.recode_YEAR (Census.filter_rows Sample.census))
  = [0; 0].
Proof. vm_compute. reflexivity. Qed.

(** ** Ranked feature importances *)

Section ReportMore.
Import Report.

Lemma by_importance_desc_ge a b : by_importance_desc a b → Qle b.1 a.1.
Proof.
  destruct a as [[n1 d1] s1], b as [[n2 d2] s2].
  unfold by_importance_desc, Qle, Qopp. cbn [fst Qnum Qden]. lia.
Qed.

Lemma insert_by_Permutation x l : insert_by x l ≡ₚ x :: l.
Proof.
  induction l as [|y l IH]; [done|]. cbn [insert_by].
  case_decide; [done|]. by rewrite IH, Permutation_swap.
Qed.

Lemma insert_by_StronglySorted x l :
  StronglySorted by_importance_desc l → StronglySorted by_importance_desc (insert_by x l).
Proof.
  induction 1 as [|y l Hl IH Hy]; cbn [insert_by].
  - repeat constructor.
  - case_decide as Hxy.
    + constructor; [by constructor|]. constructor; [done|].
      eapply Forall_impl; [exact Hy|]. intros z Hz. by etrans.
    + constructor; [done|]. rewrite insert_by_Permutation. constructor; [|done].
      by destruct (total by_importance_desc x y).
Qed.

(** Entries of one importance keep their relative order. *)
Lemma insert_by_filter q x l :
  filter (fun e => Qeq e.1 q) (insert_by x l) = filter (fun e => Qeq e.1 q) (x :: l).
Proof.
  induction l as [|y l IH]; [done|]. cbn [insert_by].
  case_decide as Hxy; [done|].
  rewrite filter_cons, IH, !filter_cons.
  destruct (decide (Qeq x.1 q)) as [Hx|Hx], (decide (Qeq y.1 q)) as [Hy|Hy]; try done.
  destruct Hxy. unfold by_importance_desc. rewrite Hx, Hy. apply Qle_refl.
Qed.

Lemma sort_by_importance_filter q l :
  filter (fun e => Qeq e.1 q) (sort_by_importance l) = filter (fun e => Qeq e.1 q) l.
Proof.
  unfold sort_by_importance. induction l as [|x l IH]; [done|].
  cbn [foldr]. rewrite insert_by_filter, !filter_cons, IH. done.
Qed.

End ReportMore.

Example feat_imp_sample :
  Report.feat_imp [Qmake 1 10; Qmake 0 1; Qmake 3 10; Qmake 1 10; Qmake 2 20]
    ["RaceOH_White"; "RaceOH_Black"; "ChargeCodeOH_18.2-95"; "FipsOH_3"; "GenderOH_Male"]
  = [ (Qmake 3 10, "ChargeCodeOH_18.2-95"); (Qmake 1 10, "RaceOH_White");
      (Qmake 1 10, "FipsOH_3"); (Qmake 2 20, "GenderOH_Male"); (Qmake 0 1, "RaceOH_Black") ].
Proof. vm_compute. reflexivity. Qed.

(** X16: the ranked list holds exactly the (importance, name) pairs of
    the zipped vector and names, as many as the shorter of the two; it is
    in descending order of importance (no entry has a larger importance
    than an entry before it); and entries of equal importance stay in
    their order in the vector. *)
Theorem X16_feat_imp_descending (importances : list Q) (feature_names : list string) :
  Report.feat_imp importances feature_names ≡ₚ zip importances feature_names
  ∧ length (Report.feat_imp importances feature_names)
    = Nat.min (length importances) (length feature_names)
  ∧ (∀ i j a b,
       (i < j)%nat →
       Report.feat_imp importances feature_names !! i = Some a →
       Report.feat_imp importances feature_names !! j = Some b →
       Qle b.1 a.1)
  ∧ (∀ q, filter (fun e => Qeq e.1 q) (Report.feat_imp importances feature_names)
          = filter (fun e => Qeq e.1 q) (zip importances feature_names)).
Proof.
  assert (Hperm : ∀ l, Report.sort_by_importance l ≡ₚ l).
  { unfold Report.sort_by_importance. induction l as [|x l IH]; [done|].
    cbn [foldr]. by rewrite insert_by_Permutation, IH. }
  assert (Hsort : ∀ l, StronglySorted Report.by_importance_desc (Report.sort_by_importance l)).
  { unfold Report.sort_by_importance. induction l as [|x l IH]; [constructor|].
    cbn [foldr]. by apply insert_by_StronglySorted. }
  unfold Report.feat_imp. split_and!.
  - apply Hperm.
  - rewrite Hperm. apply length_zip_with.
  - intros i j a b Hlt Hi Hj. apply by_importance_desc_ge.
    eapply (StronglySorted_lookup Report.by_importance_desc); [|exact Hi|exact Hj|exact Hlt].
    apply Hsort.
  - intros q. apply sort_by_importance_filter.
Qed.
